(** * libSGM samples: the batch runner ([stereosgm_movie.cpp]) and the
      benchmark runner ([stereosgm_test_time.cpp])

    A shallow embedding of the two sample programs and the properties of
    their frame loop, disparity encoding and latency measurement.

    The programs talk to three collaborators whose code is not part of the
    samples: OpenCV ([cv::imread], [cv::imwrite], [cv::Mat]), the stereo
    engine ([sgm::StereoSGM]) and the C++ clocks.  Their answers are gathered
    in a record [World]; what the programs do to them is recorded as a list
    of [event]s.  Everything else is computed as the source computes it. *)

From Stdlib Require Import ZArith List Lia Lqa Bool QArith Qround Qabs Ascii String DecimalString DecimalZ Sorted.
Import ListNotations.
Open Scope Z_scope.

(** ** Machine integers *)

Definition INT_MIN : Z := - 2 ^ 31.
Definition INT_MAX : Z := 2 ^ 31 - 1.
Definition USHRT_MAX : Z := 65535.
Definition SHRT_MIN : Z := -32768.
Definition SHRT_MAX : Z := 32767.

Definition is_int (z : Z) : Prop := INT_MIN <= z <= INT_MAX.
Definition is_short (z : Z) : Prop := SHRT_MIN <= z <= SHRT_MAX.

(** The value an [int] holds after an arithmetic result [z] is stored in it:
    two's complement wrap-around on 32 bits. *)
Definition wrap_int (z : Z) : Z := (z + 2 ^ 31) mod 2 ^ 32 - 2 ^ 31.

Definition int_add (a b : Z) : Z := wrap_int (a + b).
Definition int_sub (a b : Z) : Z := wrap_int (a - b).
Definition int_mul (a b : Z) : Z := wrap_int (a * b).
(** C++ integer division truncates towards zero. *)
Definition int_div (a b : Z) : Z := wrap_int (Z.quot a b).

(** ** The part of OpenCV the samples use *)

Module cv.

(** Type codes of [cv::Mat::type()]: depth plus [(channels - 1) << 3]. *)
Definition CV_8U : Z := 0.
Definition CV_8S : Z := 1.
Definition CV_16U : Z := 2.
Definition CV_16S : Z := 3.
Definition CV_32S : Z := 4.
Definition CV_32F : Z := 5.
Definition CV_64F : Z := 6.
Definition CV_CN_SHIFT : Z := 3.
Definition CV_MAT_DEPTH_MASK : Z := 7.

(** A matrix: its shape, its type code and its samples in row-major
    order.  The samples of the matrices met here are integers. *)
Record Mat : Type := mkMat {
  rows : Z;
  cols : Z;
  type : Z;
  data : list Z
}.

(** [cv::Mat()], which [cv::imread] returns when it cannot read. *)
Definition Mat_default : Mat := mkMat 0 0 0 [].

Definition total (m : Mat) : Z := rows m * cols m.

(** [cv::Mat::empty()]: no element or no data. *)
Definition empty (m : Mat) : bool :=
  (total m =? 0) || match data m with [] => true | _ :: _ => false end.

(** [a.size() == b.size()] *)
Definition size_eq (a b : Mat) : bool :=
  (cols a =? cols b) && (rows a =? rows b).

(** [cv::Mat::at(y, x)] on a single-channel matrix. *)
Definition at_ (m : Mat) (y x : Z) : option Z :=
  if (0 <=? y) && (y <? rows m) && (0 <=? x) && (x <? cols m)
  then nth_error (data m) (Z.to_nat (y * cols m + x))
  else None.

(** [cvRound]: the nearest integer, a tie going to the even one. *)
Definition cvRound (v : Q) : Z :=
  let f := Qfloor v in
  match Qcompare (v - inject_Z f) (1 # 2) with
  | Lt => f
  | Gt => f + 1
  | Eq => if Z.even f then f else f + 1
  end.

(** [saturate_cast<ushort>(int v)]:
    [(unsigned)v <= USHRT_MAX ? v : v > 0 ? USHRT_MAX : 0]. *)
Definition saturate_cast_ushort (v : Z) : Z :=
  if (0 <=? v) && (v <=? USHRT_MAX) then v
  else if 0 <? v then USHRT_MAX else 0.

(** [src.convertTo(dst, CV_16U, alpha)]: every sample becomes
    [saturate_cast<ushort>(src * alpha + 0)], the rounding being
    [cvRound].  OpenCV computes the product in floating point; for 16-bit
    samples and an integer [alpha] of small size that product is exact, so
    it is taken here in the rationals. *)
Definition convertTo_16U (src : Mat) (alpha : Q) : Mat :=
  mkMat (rows src) (cols src) CV_16U
        (map (fun s => saturate_cast_ushort (cvRound (inject_Z s * alpha + 0)))
             (data src)).

(** [src == value]: a [CV_8U] mask, 255 where the sample equals the
    scalar and 0 elsewhere. *)
Definition compare_eq (src : Mat) (value : Z) : Mat :=
  mkMat (rows src) (cols src) CV_8U
        (map (fun s => if s =? value then 255 else 0) (data src)).

(** [m.setTo(value, mask)]: the samples under a non-zero mask sample
    are replaced. *)
Definition setTo (m : Mat) (value : Z) (mask : Mat) : Mat :=
  mkMat (rows m) (cols m) (type m)
        (map (fun sm => if snd sm =? 0 then fst sm else value)
             (combine (data m) (data mask))).

End cv.

(** ** The disparity encoder ([stereosgm_movie.cpp], lines 113-120) *)

Definition encode_disparity (disparity : cv.Mat) (invalid_disp : Z) : cv.Mat :=
  let output_disparity := cv.convertTo_16U disparity 100 in
  let mask := cv.compare_eq disparity invalid_disp in
  cv.setTo output_disparity 0 mask.



(** ** Programs: events, early exit and the clock *)

Definition EXIT_FAILURE : Z := 1.

(** The three device buffers of a run. *)
Inductive buffer : Type := d_I1 | d_I2 | d_disparity.

(** The parameters an engine is constructed with. *)
Record StereoSGM : Type := mkStereoSGM {
  width : Z;
  height : Z;
  disparity_size : Z;
  input_depth_bits : Z;
  output_depth_bits : Z
}.

(** A [double]: a finite value, taken in the rationals, or the infinity a
    division by zero gives. *)
Inductive double : Type :=
| Finite (v : Q)
| Infinity.

(** [a / d] for a positive [double] constant [a] and an integer [d]. *)
Definition double_div (a : Q) (d : Z) : double :=
  if d =? 0 then Infinity else Finite (a / inject_Z d).

(** What [cv::imwrite] can do: return [true], return [false], or throw a
    [cv::Exception]. *)
Inductive write_result : Type :=
| Written
| NotWritten
| Throws (what : string).

(** The collaborators' answers. *)
Record World : Type := mkWorld {
  (** [cv::imread(cv::format(fmt, index), cv::IMREAD_UNCHANGED)] *)
  imread : string -> Z -> cv.Mat;
  (** [cv::imwrite(path, img)] *)
  imwrite : string -> cv.Mat -> write_result;
  (** the [k]-th reading of the clock, in ticks of the clock *)
  clock : nat -> Z;
  (** [duration_cast<microseconds>(d).count()] of a difference of readings *)
  microseconds : Z -> Z;
  (** the disparity samples [sgm.execute] leaves in the output buffer, from
      the contents of the two input buffers *)
  execute : StereoSGM -> list Z -> list Z -> list Z;
  (** [sgm.get_invalid_disparity()] *)
  get_invalid_disparity : StereoSGM -> Z
}.

Inductive event : Type :=
| PrintMessage
| PrintErrors
| Imread (path_format : string) (index : Z)
| Cerr (text : string)
| SgmCreate (sgm : StereoSGM)
| Alloc (b : buffer) (bytes : Z)
| Upload (b : buffer) (host : list Z)
| Now (t : Z)
| Execute
| DeviceSynchronize
| Download (b : buffer)
| Imwrite (full_path : string) (img : cv.Mat)
| CoutFinished (frame_no : Z)
| CoutSaved (frame_no : Z) (full_path : string) (precision : nat) (fps : double)
| CerrSaveError (frame_no : Z) (full_path : string) (what : string)
| CoutStarting (warmup_runs measurement_runs : Z)
| CoutAverage (measurement_runs : Z) (precision : nat) (average_time_ms : Q).

(** The state a program threads: how often the clock was read and what the
    device buffers hold. *)
Record state : Type := mkState {
  clock_reads : nat;
  mem_I1 : list Z;
  mem_I2 : list Z;
  mem_disparity : list Z
}.

Definition initial_state : state := mkState 0 [] [] [].

(** How a computation ends: with a value, with [std::exit], or, for a loop
    run on fuel, with the fuel used up. *)
Inductive outcome (A : Type) : Type :=
| Normal (a : A)
| Exit (status : Z)
| OutOfFuel.
Arguments Normal {A} a.
Arguments Exit {A} status.
Arguments OutOfFuel {A}.

Definition M (A : Type) : Type := state -> outcome A * list event * state.

Definition ret {A} (a : A) : M A := fun s => (Normal a, [], s).

Definition bind {A B} (m : M A) (f : A -> M B) : M B :=
  fun s =>
    match m s with
    | (Normal a, t1, s1) =>
        match f a s1 with
        | (r, t2, s2) => (r, t1 ++ t2, s2)
        end
    | (Exit status, t1, s1) => (Exit status, t1, s1)
    | (OutOfFuel, t1, s1) => (OutOfFuel, t1, s1)
    end.

Declare Scope prog_scope.
Delimit Scope prog_scope with prog.
Notation "x <- m ;; k" := (bind m (fun x => k))
  (at level 61, m at next level, right associativity) : prog_scope.
Notation "m ;; k" := (bind m (fun _ => k))
  (at level 61, right associativity) : prog_scope.
Open Scope prog_scope.

Definition emit (e : event) : M unit := fun s => (Normal tt, [e], s).
Definition exit {A} (status : Z) : M A := fun s => (Exit status, [], s).
Definition out_of_fuel {A} : M A := fun s => (OutOfFuel, [], s).

(** A finished run: the exit status, if there is one, and the events. *)
Definition run {A} (m : M A) (status_of : A -> Z) : option Z * list event :=
  match m initial_state with
  | (Normal a, t, _) => (Some (status_of a), t)
  | (Exit status, t, _) => (Some status, t)
  | (OutOfFuel, t, _) => (None, t)
  end.

Section Collaborators.

Variable w : World.

Definition do_imread (path_format : string) (index : Z) : M cv.Mat :=
  emit (Imread path_format index) ;; ret (imread w path_format index).

Definition do_imwrite (full_path : string) (img : cv.Mat) : M write_result :=
  emit (Imwrite full_path img) ;; ret (imwrite w full_path img).

(** [std::chrono::..._clock::now()] *)
Definition now : M Z :=
  fun s =>
    let t := clock w (clock_reads s) in
    (Normal t, [Now t],
     mkState (S (clock_reads s)) (mem_I1 s) (mem_I2 s) (mem_disparity s)).

(** The constructor of [sgm::StereoSGM]. *)
Definition new_StereoSGM (width height disp_size src_depth dst_depth : Z)
  : M StereoSGM :=
  let sgm := mkStereoSGM width height disp_size src_depth dst_depth in
  emit (SgmCreate sgm) ;; ret sgm.

(** [sgm.execute(d_I1.data, d_I2.data, d_disparity.data)] *)
Definition sgm_execute (sgm : StereoSGM) : M unit :=
  fun s =>
    (Normal tt, [Execute],
     mkState (clock_reads s) (mem_I1 s) (mem_I2 s)
             (execute w sgm (mem_I1 s) (mem_I2 s))).

Definition cudaDeviceSynchronize : M unit := emit DeviceSynchronize.

End Collaborators.

(** Modelled from the spec: the macro [ASSERT_MSG] of [sample_common.h],
    which is not among the sources.  A failed check is fatal: the message is
    reported and the process ends with a non-zero status. *)
Definition ASSERT_MSG (expr : bool) (msg : string) : M unit :=
  if expr then ret tt else (emit (Cerr msg) ;; exit EXIT_FAILURE).

(** Modelled from the spec: the class [device_buffer] of [sample_common.h],
    which is not among the sources.  A buffer is a block of device memory of
    a fixed capacity, allocated when it is constructed; [upload] copies the
    capacity from the host pointer into the block and [download] copies the
    block to the host pointer.  The block's contents are kept as the samples
    of the host matrix they were copied from: this is what the block holds
    when the host matrix holds as many bytes as the capacity, as every image
    of the size and type of the first pair does.  A host matrix of fewer
    bytes breaks the precondition of [upload] (the copy reads past it), and
    what the program does then is not defined; see [upload_defined]. *)
Definition new_device_buffer (b : buffer) (bytes : Z) : M unit :=
  emit (Alloc b bytes).

Definition upload (b : buffer) (host : list Z) : M unit :=
  fun s =>
    (Normal tt, [Upload b host],
     match b with
     | d_I1 => mkState (clock_reads s) host (mem_I2 s) (mem_disparity s)
     | d_I2 => mkState (clock_reads s) (mem_I1 s) host (mem_disparity s)
     | d_disparity => mkState (clock_reads s) (mem_I1 s) (mem_I2 s) host
     end).

Definition download (b : buffer) : M (list Z) :=
  fun s =>
    (Normal match b with
            | d_I1 => mem_I1 s
            | d_I2 => mem_I2 s
            | d_disparity => mem_disparity s
            end,
     [Download b], s).

(** [ss << n] for an [int]: its decimal numeral. *)
Definition decimal (n : Z) : string := NilEmpty.string_of_int (Z.to_int n).

(** [ss << std::setw(width) << std::setfill(fill) << n]: the numeral,
    filled on the left up to the width. *)
Fixpoint fill_left (k : nat) (fill : Ascii.ascii) (s : string) : string :=
  match k with
  | O => s
  | S k' => String fill (fill_left k' fill s)
  end.

Definition setw_setfill (width : nat) (fill : Ascii.ascii) (n : Z) : string :=
  let s := decimal n in
  fill_left (width - String.length s) fill s.

(** How an iteration of a loop ends. *)
Inductive flow : Type := Continue | Break.

(** The command line, as [cv::CommandLineParser] hands it over. *)
Record arguments : Type := mkArguments {
  help : bool;                (* [parser.has("help")] *)
  check : bool;               (* [parser.check()] *)
  image_format_L : string;
  image_format_R : string;
  output_path : string;
  disp_size : Z;
  start_number : Z;
  total_number : Z
}.

(** ** The batch runner: [stereosgm_movie.cpp] *)

Module stereosgm_movie.

Section Main.

Variable w : World.
Variable args : arguments.

(** [disparity_NNNN.png] under the output directory (lines 123-128). *)
Definition filename (frame_no : Z) : string :=
  ("disparity_" ++ setw_setfill 4 "0"%char frame_no ++ ".png")%string.

Definition full_path (frame_no : Z) : string :=
  (output_path args ++ "/" ++ filename frame_no)%string.

(** The body of the loop (lines 89-140). *)
Definition frame (sgm : StereoSGM) (invalid_disp : Z) (frame_no : Z)
  : M flow :=
  I1 <- do_imread w (image_format_L args) frame_no ;;
  I2 <- do_imread w (image_format_R args) frame_no ;;
  if cv.empty I1 || cv.empty I2 then
    emit (CoutFinished frame_no) ;;
    ret Break
  else
    upload d_I1 (cv.data I1) ;;
    upload d_I2 (cv.data I2) ;;
    t1 <- now w ;;
    sgm_execute w sgm ;;
    cudaDeviceSynchronize ;;
    t2 <- now w ;;
    let duration := microseconds w (t2 - t1) in
    let fps := double_div 1000000 duration in
    samples <- download d_disparity ;;
    let disparity := cv.mkMat (height sgm) (width sgm) cv.CV_16S samples in
    let output_disparity := encode_disparity disparity invalid_disp in
    r <- do_imwrite w (full_path frame_no) output_disparity ;;
    match r with
    | Throws what =>
        emit (CerrSaveError frame_no (full_path frame_no) what)
    | Written | NotWritten =>
        emit (CoutSaved frame_no (full_path frame_no) 2 fps)
    end ;;
    ret Continue.

(** [for (int frame_no = start_number;
          frame_no - start_number < total_number; frame_no++)] *)
Fixpoint frames (fuel : nat) (sgm : StereoSGM) (invalid_disp : Z)
         (frame_no : Z) : M unit :=
  match fuel with
  | O => out_of_fuel
  | S fuel' =>
      if int_sub frame_no (start_number args) <? total_number args then
        f <- frame sgm invalid_disp frame_no ;;
        match f with
        | Break => ret tt
        | Continue => frames fuel' sgm invalid_disp (int_add frame_no 1)
        end
      else ret tt
  end.

(** The program after the command line is read (lines 62-143), the
    loop being given [fuel] tests of its condition. *)
Definition pipeline (fuel : nat) : M Z :=
  I1 <- do_imread w (image_format_L args) (start_number args) ;;
  I2 <- do_imread w (image_format_R args) (start_number args) ;;
  ASSERT_MSG (negb (cv.empty I1) && negb (cv.empty I2))
             "imread failed. Check start_number and image paths." ;;
  ASSERT_MSG (cv.size_eq I1 I2 && (cv.type I1 =? cv.type I2))
             "input images must be same size and type." ;;
  ASSERT_MSG ((cv.type I1 =? cv.CV_8U) || (cv.type I1 =? cv.CV_16U))
             "input image format must be CV_8U or CV_16U." ;;
  ASSERT_MSG ((disp_size args =? 64) || (disp_size args =? 128)
              || (disp_size args =? 256))
             "disparity size must be 64, 128 or 256." ;;
  let width := cv.cols I1 in
  let height := cv.rows I1 in
  let src_depth := if cv.type I1 =? cv.CV_8U then 8 else 16 in
  let dst_depth := 16 in
  let src_bytes := int_div (int_mul (int_mul src_depth width) height) 8 in
  let dst_bytes := int_div (int_mul (int_mul dst_depth width) height) 8 in
  sgm <- new_StereoSGM width height (disp_size args) src_depth dst_depth ;;
  new_device_buffer d_I1 src_bytes ;;
  new_device_buffer d_I2 src_bytes ;;
  new_device_buffer d_disparity dst_bytes ;;
  let invalid_disp := get_invalid_disparity w sgm in
  frames fuel sgm invalid_disp (start_number args) ;;
  ret 0.

(** [main] (lines 41-144). *)
Definition main_on (fuel : nat) : M Z :=
  if help args then
    emit PrintMessage ;;
    ret 0
  else if negb (check args) then
    emit PrintErrors ;;
    emit PrintMessage ;;
    exit EXIT_FAILURE
  else pipeline fuel.

(** The loop tests its condition at most [total_number + 1] times, so
    this much fuel is never used up (lemma [frames_end]). *)
Definition main : M Z := main_on (S (Z.to_nat (total_number args))).

End Main.

Definition status (w : World) (args : arguments) : option Z :=
  fst (run (main w args) (fun r => r)).

Definition trace (w : World) (args : arguments) : list event :=
  snd (run (main w args) (fun r => r)).

End stereosgm_movie.

(** ** The benchmark runner: [stereosgm_test_time.cpp] *)

Module stereosgm_test_time.

Definition WARMUP_RUNS : Z := 20.
Definition MEASUREMENT_RUNS : Z := 50.

(** [type2str] (lines 141-162). *)
Definition type2str (type : Z) : string :=
  let depth := Z.land type cv.CV_MAT_DEPTH_MASK mod 256 in
  let chans := (1 + Z.shiftr type cv.CV_CN_SHIFT) mod 256 in
  let r : string :=
    if depth =? cv.CV_8U then "8U"%string
    else if depth =? cv.CV_8S then "8S"%string
    else if depth =? cv.CV_16U then "16U"%string
    else if depth =? cv.CV_16S then "16S"%string
    else if depth =? cv.CV_32S then "32S"%string
    else if depth =? cv.CV_32F then "32F"%string
    else if depth =? cv.CV_64F then "64F"%string
    else "User"%string in
  (r ++ "C" ++ decimal chans)%string.

Section Main.

Variable w : World.
Variable args : arguments.

(** [for (int i = 0; i < WARMUP_RUNS + MEASUREMENT_RUNS; ++i)]
    (lines 110-124), [total_duration_us] being carried along. *)
Fixpoint runs (fuel : nat) (sgm : StereoSGM) (i : Z)
         (total_duration_us : Q) : M Q :=
  match fuel with
  | O => out_of_fuel
  | S fuel' =>
      if i <? int_add WARMUP_RUNS MEASUREMENT_RUNS then
        t1 <- now w ;;
        sgm_execute w sgm ;;
        cudaDeviceSynchronize ;;
        t2 <- now w ;;
        let total_duration_us :=
          if WARMUP_RUNS <=? i then
            let duration := microseconds w (t2 - t1) in
            (total_duration_us + inject_Z duration)%Q
          else total_duration_us in
        runs fuel' sgm (int_add i 1) total_duration_us
      else ret total_duration_us
  end.

(** The program after the command line is read (lines 66-136). *)
Definition pipeline (fuel : nat) : M Z :=
  I1 <- do_imread w (image_format_L args) (start_number args) ;;
  I2 <- do_imread w (image_format_R args) (start_number args) ;;
  ASSERT_MSG (negb (cv.empty I1) && negb (cv.empty I2))
             "imread failed. Check start_number and image paths." ;;
  ASSERT_MSG (cv.size_eq I1 I2 && (cv.type I1 =? cv.type I2))
             "input images must be same size and type." ;;
  (if negb (cv.type I1 =? cv.CV_8U) && negb (cv.type I1 =? cv.CV_16U) then
     emit (Cerr "Error: Input image format is not supported.") ;;
     emit (Cerr "Required format: CV_8U (8-bit grayscale) or CV_16U (16-bit grayscale).") ;;
     emit (Cerr ("Actual format: " ++ type2str (cv.type I1))%string) ;;
     emit (Cerr "Hint: If you are using color images, please convert them to grayscale first.") ;;
     exit EXIT_FAILURE
   else ret tt) ;;
  ASSERT_MSG ((disp_size args =? 64) || (disp_size args =? 128)
              || (disp_size args =? 256))
             "disparity size must be 64, 128 or 256." ;;
  let width := cv.cols I1 in
  let height := cv.rows I1 in
  let src_depth := if cv.type I1 =? cv.CV_8U then 8 else 16 in
  let dst_depth := 16 in
  let src_bytes := int_div (int_mul (int_mul src_depth width) height) 8 in
  let dst_bytes := int_div (int_mul (int_mul dst_depth width) height) 8 in
  sgm <- new_StereoSGM width height (disp_size args) src_depth dst_depth ;;
  new_device_buffer d_I1 src_bytes ;;
  new_device_buffer d_I2 src_bytes ;;
  new_device_buffer d_disparity dst_bytes ;;
  upload d_I1 (cv.data I1) ;;
  upload d_I2 (cv.data I2) ;;
  emit (CoutStarting WARMUP_RUNS MEASUREMENT_RUNS) ;;
  total_duration_us <- runs fuel sgm 0 0 ;;
  let average_time_us := (total_duration_us / inject_Z MEASUREMENT_RUNS)%Q in
  let average_time_ms := (average_time_us / 1000)%Q in
  emit (CoutAverage MEASUREMENT_RUNS 2 average_time_ms) ;;
  ret 0.

(** [main] (lines 44-137). *)
Definition main_on (fuel : nat) : M Z :=
  if help args then
    emit PrintMessage ;;
    ret 0
  else if negb (check args) then
    emit PrintErrors ;;
    emit PrintMessage ;;
    exit EXIT_FAILURE
  else pipeline fuel.

(** The loop tests its condition 71 times (lemma [runs_closed]). *)
Definition main : M Z :=
  main_on (S (Z.to_nat (WARMUP_RUNS + MEASUREMENT_RUNS))).

End Main.

Definition status (w : World) (args : arguments) : option Z :=
  fst (run (main w args) (fun r => r)).

Definition trace (w : World) (args : arguments) : list event :=
  snd (run (main w args) (fun r => r)).

End stereosgm_test_time.

(** ** Reading a trace *)

Definition is_alloc (e : event) : bool :=
  match e with Alloc _ _ => true | _ => false end.

Definition is_sgm_create (e : event) : bool :=
  match e with SgmCreate _ => true | _ => false end.

Definition is_execute (e : event) : bool :=
  match e with Execute => true | _ => false end.

Definition is_imwrite (e : event) : bool :=
  match e with Imwrite _ _ => true | _ => false end.

Definition is_upload (e : event) : bool :=
  match e with Upload _ _ => true | _ => false end.

(** The frames whose processing reached its end: each one prints its number,
    on [std::cout] when [cv::imwrite] returned and on [std::cerr] when it
    threw. *)
Fixpoint processed_frames (t : list event) : list Z :=
  match t with
  | [] => []
  | CoutSaved frame_no _ _ _ :: t' => frame_no :: processed_frames t'
  | CerrSaveError frame_no _ _ :: t' => frame_no :: processed_frames t'
  | _ :: t' => processed_frames t'
  end.

(** The indices [start, start + 1, ..., start + k - 1]. *)
Definition index_range (start : Z) (k : nat) : list Z :=
  map (fun i => start + Z.of_nat i) (seq 0 k).

(** Both images of the pair at an index can be read. *)
Definition readable (w : World) (args : arguments) (index : Z) : bool :=
  negb (cv.empty (imread w (image_format_L args) index))
  && negb (cv.empty (imread w (image_format_R args) index)).

(** The pair at an index has the shape the runners accept. *)
Definition compatible (w : World) (args : arguments) (index : Z) : bool :=
  let I1 := imread w (image_format_L args) index in
  let I2 := imread w (image_format_R args) index in
  cv.size_eq I1 I2 && (cv.type I1 =? cv.type I2)
  && ((cv.type I1 =? cv.CV_8U) || (cv.type I1 =? cv.CV_16U)).

Definition supported_disp_size (d : Z) : bool :=
  (d =? 64) || (d =? 128) || (d =? 256).

(** A small world to run the programs in: frames 0, 1 and 2 exist as 2x2
    8-bit images, the clock advances by 2500 ticks of a microsecond per
    reading, the engine answers one disparity per pixel. *)
Definition example_image : cv.Mat := cv.mkMat 2 2 cv.CV_8U [10; 20; 30; 40].

Definition example_world : World :=
  mkWorld
    (fun _ index => if (0 <=? index) && (index <? 3) then example_image
                    else cv.Mat_default)
    (fun _ _ => Written)
    (fun k => 2500 * Z.of_nat k)
    (fun d => d)
    (fun _ _ _ => [3; -1; 700; -5])
    (fun _ => -1).

Definition example_arguments (start total : Z) : arguments :=
  mkArguments false true "left_%d.png" "right_%d.png" "out" 128 start total.

(** The encoded sample of one disparity sample, read off the three matrix
    operations of [encode_disparity]. *)
Definition encode_sample (invalid_disp d : Z) : Z :=
  let scaled := cv.saturate_cast_ushort (cv.cvRound (inject_Z d * 100 + 0)) in
  if (if d =? invalid_disp then 255 else 0) =? 0 then scaled else 0.

(** A value brought into the range of an unsigned 16-bit integer. *)
Definition clamp_ushort (z : Z) : Z := Z.max 0 (Z.min USHRT_MAX z).


(** ** The traces of the two runners, spelt out

    The events of a run, as lists, for the proofs to work on. *)

Section Traces.

Variable w : World.
Variable args : arguments.

(** The run gets past the command line. *)
Definition past_command_line : bool := negb (help args) && check args.

(** The run gets past the checks of the first pair and of [disp_size]. *)
Definition passes_validation : bool :=
  readable w args (start_number args)
  && compatible w args (start_number args)
  && supported_disp_size (disp_size args).

Definition left_image (n : Z) : cv.Mat := imread w (image_format_L args) n.
Definition right_image (n : Z) : cv.Mat := imread w (image_format_R args) n.

(** The engine of a run; its shape is the shape of the first left image. *)
Definition engine : StereoSGM :=
  let I1 := left_image (start_number args) in
  mkStereoSGM (cv.cols I1) (cv.rows I1) (disp_size args)
              (if cv.type I1 =? cv.CV_8U then 8 else 16) 16.

Definition src_bytes : Z :=
  int_div (int_mul (int_mul (input_depth_bits engine) (width engine))
                   (height engine)) 8.

Definition dst_bytes : Z :=
  int_div (int_mul (int_mul 16 (width engine)) (height engine)) 8.

(** What both runners do between the first pair and their loop. *)
Definition startup_trace : list event :=
  [Imread (image_format_L args) (start_number args);
   Imread (image_format_R args) (start_number args);
   SgmCreate engine;
   Alloc d_I1 src_bytes; Alloc d_I2 src_bytes; Alloc d_disparity dst_bytes].

(** The message the batch runner fails with when the first pair or
    [disp_size] does not pass: that of the first check that fails. *)
Definition failure_message : string :=
  let I1 := left_image (start_number args) in
  let I2 := right_image (start_number args) in
  if negb (negb (cv.empty I1) && negb (cv.empty I2)) then
    "imread failed. Check start_number and image paths."
  else if negb (cv.size_eq I1 I2 && (cv.type I1 =? cv.type I2)) then
    "input images must be same size and type."
  else if negb ((cv.type I1 =? cv.CV_8U) || (cv.type I1 =? cv.CV_16U)) then
    "input image format must be CV_8U or CV_16U."
  else "disparity size must be 64, 128 or 256.".

(** The microseconds between the clock readings [c] and [c + 1]. *)
Definition elapsed (c : nat) : Z :=
  microseconds w (clock w (S c) - clock w c).

(** A matching call between two clock readings. *)
Definition timed_call (c : nat) : list event :=
  [Now (clock w c); Execute; DeviceSynchronize; Now (clock w (S c))].

(** The disparity map of frame [n] and the image written for it. *)
Definition disparity_of (n : Z) : cv.Mat :=
  cv.mkMat (height engine) (width engine) cv.CV_16S
           (execute w engine (cv.data (left_image n))
                    (cv.data (right_image n))).

Definition written_image (n : Z) : cv.Mat :=
  encode_disparity (disparity_of n) (get_invalid_disparity w engine).

(** The line frame [n] ends with. *)
Definition report (n : Z) (c : nat) : event :=
  match imwrite w (stereosgm_movie.full_path args n) (written_image n) with
  | Throws what =>
      CerrSaveError n (stereosgm_movie.full_path args n) what
  | Written | NotWritten =>
      CoutSaved n (stereosgm_movie.full_path args n) 2
                (double_div 1000000 (elapsed c))
  end.

(** The events of a frame that can be read, the clock having been read
    [c] times before. *)
Definition frame_trace (n : Z) (c : nat) : list event :=
  [Imread (image_format_L args) n; Imread (image_format_R args) n;
   Upload d_I1 (cv.data (left_image n));
   Upload d_I2 (cv.data (right_image n))]
  ++ timed_call c
  ++ [Download d_disparity;
      Imwrite (stereosgm_movie.full_path args n) (written_image n);
      report n c].

(** The events of a frame that cannot be read. *)
Definition last_trace (n : Z) : list event :=
  [Imread (image_format_L args) n; Imread (image_format_R args) n;
   CoutFinished n].

(** The events of the frame loop from frame [n] on. *)
Fixpoint loop_trace (fuel : nat) (n : Z) (c : nat) : list event :=
  match fuel with
  | O => []
  | S fuel' =>
      if int_sub n (start_number args) <? total_number args then
        if readable w args n
        then frame_trace n c ++ loop_trace fuel' (int_add n 1) (S (S c))
        else last_trace n
      else []
  end.

(** The events of the benchmark loop from iteration [i] on. *)
Fixpoint runs_trace (fuel : nat) (i : Z) (c : nat) : list event :=
  match fuel with
  | O => []
  | S fuel' =>
      if i <? 70 then timed_call c ++ runs_trace fuel' (i + 1) (S (S c))
      else []
  end.

(** The microseconds measured by iteration [i] of the benchmark loop. *)
Definition duration_of_run (i : nat) : Z := elapsed (2 * i).

(** The durations the benchmark is to average: those of the 50
    iterations that follow the 20 warm-up ones. *)
Definition measured_durations : list Z :=
  map duration_of_run (seq 20 50).

Definition sum_Q (l : list Z) : Q :=
  fold_right (fun d acc => (inject_Z d + acc)%Q) 0%Q l.

(** Their arithmetic mean, in milliseconds. *)
Definition mean_ms (l : list Z) : Q :=
  (sum_Q l / inject_Z (Z.of_nat (List.length l)) / 1000)%Q.

End Traces.

(** ** Worlds to run the batch runner in *)

(** Frame 0 is a pair of 2x2 8-bit images; at frame 1 the left image is
    2x2 and 8-bit but the right one is 1x1 and 16-bit. *)
Definition mixed_world : World :=
  mkWorld
    (fun path_format index =>
       if index =? 0 then example_image
       else if index =? 1 then
         if String.eqb path_format "left_%d.png" then example_image
         else cv.mkMat 1 1 cv.CV_16U [500]
       else cv.Mat_default)
    (fun _ _ => Written)
    (fun k => 2500 * Z.of_nat k)
    (fun d => d)
    (fun _ _ _ => [3; -1; 700; -5])
    (fun _ => -1).

(** The world of the examples, except that [cv::imwrite] returns [false]
    every time, as it does when the output directory does not exist. *)
Definition unwritable_world : World :=
  mkWorld (imread example_world) (fun _ _ => NotWritten)
          (clock example_world) (microseconds example_world)
          (execute example_world) (get_invalid_disparity example_world).

(** A line that reports a failure. *)
Definition is_error_line (e : event) : bool :=
  match e with
  | Cerr _ | CerrSaveError _ _ _ => true
  | _ => false
  end.

(** The batch runner rejects a pair met in the loop when it is
    incompatible: the run is aborted and the pair is not processed. *)
Definition aborts_on_incompatible_pair
  (w : World) (args : arguments) (n : Z) : Prop :=
  start_number args < n < start_number args + total_number args ->
  (forall i, start_number args <= i <= n -> readable w args i = true) ->
  compatible w args n = false ->
  (exists status,
     stereosgm_movie.status w args = Some status /\ status <> 0)
  /\ ~ In n (processed_frames (stereosgm_movie.trace w args)).

Section BenchmarkTotals.

Variable w : World.

(** The value of [total_duration_us] when the benchmark loop, entered at
    iteration [i] with the clock read [c] times, has ended. *)
Fixpoint runs_total (fuel : nat) (i : Z) (c : nat) (total_duration_us : Q)
  : Q :=
  match fuel with
  | O => total_duration_us
  | S fuel' =>
      if i <? 70 then
        runs_total fuel' (i + 1) (S (S c))
                   (if 20 <=? i
                    then (total_duration_us + inject_Z (elapsed w c))%Q
                    else total_duration_us)
      else total_duration_us
  end.

End BenchmarkTotals.


(** ** More ways to read a trace *)

Definition is_now (e : event) : bool :=
  match e with Now _ => true | _ => false end.

Definition is_synchronize (e : event) : bool :=
  match e with DeviceSynchronize => true | _ => false end.

Definition is_download (e : event) : bool :=
  match e with Download _ => true | _ => false end.

Definition is_imread (e : event) : bool :=
  match e with Imread _ _ => true | _ => false end.

Definition is_finished (e : event) : bool :=
  match e with CoutFinished _ => true | _ => false end.

(** How many events of a kind a trace holds. *)
Definition count (kind : event -> bool) (t : list event) : nat :=
  List.length (filter kind t).

(** ** Reading a file name back *)

(** A numeral without the fill characters it begins with. *)
Fixpoint drop_fill (fill : ascii) (s : string) : string :=
  match s with
  | EmptyString => EmptyString
  | String a s' => if Ascii.eqb a fill then drop_fill fill s' else s
  end.

(** The number a zero-filled numeral stands for. *)
Definition read_number (s : string) : option Z :=
  option_map Z.of_int (NilEmpty.int_of_string (drop_fill "0" s)).

(** [CV_MAKETYPE(depth, cn)] of OpenCV: the type code of a matrix of [cn]
    channels of a depth. *)
Definition make_type (depth cn : Z) : Z :=
  depth + Z.shiftl (cn - 1) cv.CV_CN_SHIFT.

(** The events of [m] frames in a row that can be read, from frame
    [first] on, the clock having been read [c] times before. *)
Definition frames_events (w : World) (args : arguments)
  (first : Z) (c : nat) (m : nat) : list event :=
  List.concat
    (map (fun i => frame_trace w args (first + Z.of_nat i) (c + 2 * i))
         (seq 0 m)).

(** A world whose frames are 2x2 colour images, 8 bits and 3 channels. *)
Definition colour_world : World :=
  mkWorld
    (fun _ _ => cv.mkMat 2 2 (make_type cv.CV_8U 3)
                         [1; 2; 3; 4; 5; 6; 7; 8; 9; 10; 11; 12])
    (fun _ _ => Written)
    (fun k => 2500 * Z.of_nat k)
    (fun d => d)
    (fun _ _ _ => [3; -1; 700; -5])
    (fun _ => -1).

(** A world like [w] whose clock shows [t] instead during the warm-up of
    the benchmark, that is for its first 40 readings. *)
Definition with_warmup_clock (w : World) (t : nat -> Z) : World :=
  mkWorld (imread w) (imwrite w)
          (fun k => if (k <? 40)%nat then t k else clock w k)
          (microseconds w) (execute w) (get_invalid_disparity w).

(** A world like [w] in which [cv::imwrite] answers as [answer] says. *)
Definition with_imwrite (w : World)
  (answer : string -> cv.Mat -> write_result) : World :=
  mkWorld (imread w) answer (clock w) (microseconds w) (execute w)
          (get_invalid_disparity w).

(** ** The bytes of a host image *)

(** [cv::Mat::elemSize()]: the bytes of one element, all channels. *)
Definition elem_size (type : Z) : Z :=
  let depth := Z.land type cv.CV_MAT_DEPTH_MASK in
  let channels := 1 + Z.shiftr type cv.CV_CN_SHIFT in
  channels
  * (if (depth =? cv.CV_8U) || (depth =? cv.CV_8S) then 1
     else if (depth =? cv.CV_16U) || (depth =? cv.CV_16S) then 2
     else if (depth =? cv.CV_32S) || (depth =? cv.CV_32F) then 4
     else if depth =? cv.CV_64F then 8
     else 2).

(** The bytes an image holds at its [data] pointer. *)
Definition byte_size (m : cv.Mat) : Z := cv.total m * elem_size (cv.type m).

(** The two uploads of frame [index] meet the precondition of [upload]:
    each image holds at least the bytes of the source buffers. *)
Definition upload_defined (w : World) (args : arguments) (index : Z) : bool :=
  (src_bytes w args <=? byte_size (left_image w args index))
  && (src_bytes w args <=? byte_size (right_image w args index)).

(** ** More worlds *)

(** Frame 0 is a pair of 2x2 8-bit images; at frame 1 the left image is
    2x2 and 8-bit and the right one 2x2 and 16-bit: they differ in depth,
    and neither is smaller than a source buffer. *)
Definition deeper_world : World :=
  mkWorld
    (fun path_format index =>
       if index =? 0 then example_image
       else if index =? 1 then
         if String.eqb path_format "left_%d.png" then example_image
         else cv.mkMat 2 2 cv.CV_16U [500; 600; 700; 800]
       else cv.Mat_default)
    (fun _ _ => Written)
    (fun k => 2500 * Z.of_nat k)
    (fun d => d)
    (fun _ _ _ => [3; -1; 700; -5])
    (fun _ => -1).

(** A world in which every frame can be read. *)
Definition endless_world : World :=
  mkWorld (fun _ _ => example_image) (fun _ _ => Written)
          (fun k => 2500 * Z.of_nat k) (fun d => d)
          (fun _ _ _ => [3; -1; 700; -5]) (fun _ => -1).

(** A world whose frames 2147483000, 2147483001 and 2147483002 can be
    read, and no other. *)
Definition late_world : World :=
  mkWorld
    (fun _ index => if (2147483000 <=? index) && (index <? 2147483003)
                    then example_image else cv.Mat_default)
    (fun _ _ => Written)
    (fun k => 2500 * Z.of_nat k) (fun d => d)
    (fun _ _ _ => [3; -1; 700; -5]) (fun _ => -1).

(** The batch runner processes the frames [start_number],
    [start_number + 1], ... in this order, and at most [total_number] of
    them. *)
Definition processes_frames_in_order (w : World) (args : arguments) : Prop :=
  0 <= start_number args ->
  0 <= total_number args ->
  exists k : nat,
    processed_frames (stereosgm_movie.trace w args)
    = index_range (start_number args) k
    /\ Z.of_nat k <= total_number args.

(** The frame counter is not taken past the largest [int] to a frame that
    is then processed: the range ends by [INT_MAX], or a frame on the way to
    [INT_MAX] cannot be read. *)
Definition counter_stays_int (w : World) (args : arguments) : Prop :=
  start_number args + total_number args <= INT_MAX + 1
  \/ exists n, start_number args <= n <= INT_MAX
               /\ readable w args n = false.

(** ** Printing with [std::fixed] and a precision *)

(** * Properties *)

(** ** The disparity encoder *)

Section Encoder.

Lemma cvRound_inject_Z (z : Z) : cv.cvRound (inject_Z z) = z.
Proof.
  unfold cv.cvRound.
  rewrite Qfloor_Z.
  assert (E : (inject_Z z - inject_Z z ?= 1 # 2)%Q = Lt).
  { rewrite <- Qlt_alt.
    setoid_replace (inject_Z z - inject_Z z)%Q with 0%Q by ring.
    reflexivity. }
  now rewrite E.
Qed.

Lemma cvRound_scaled (d : Z) : cv.cvRound (inject_Z d * 100 + 0) = d * 100.
Proof.
  rewrite <- (cvRound_inject_Z (d * 100)).
  unfold cv.cvRound.
  assert (E : (inject_Z d * 100 + 0 == inject_Z (d * 100))%Q).
  { rewrite inject_Z_mult. change (inject_Z 100) with 100%Q. ring. }
  rewrite !(Qfloor_comp _ _ E).
  now rewrite E.
Qed.

Lemma saturate_cast_ushort_clamp (v : Z) :
  cv.saturate_cast_ushort v = clamp_ushort v.
Proof.
  unfold cv.saturate_cast_ushort, clamp_ushort, USHRT_MAX.
  destruct (0 <=? v) eqn:E1; destruct (v <=? 65535) eqn:E2; simpl;
    try destruct (0 <? v) eqn:E3; lia.
Qed.

Lemma encode_sample_valid (invalid_disp d : Z) :
  d <> invalid_disp -> encode_sample invalid_disp d = clamp_ushort (d * 100).
Proof.
  intros Hd. unfold encode_sample.
  apply Z.eqb_neq in Hd. rewrite Hd. simpl.
  now rewrite cvRound_scaled, saturate_cast_ushort_clamp.
Qed.

Lemma encode_sample_invalid (invalid_disp : Z) :
  encode_sample invalid_disp invalid_disp = 0.
Proof. unfold encode_sample. now rewrite Z.eqb_refl. Qed.

Lemma encode_data (disparity : cv.Mat) (invalid_disp : Z) :
  cv.data (encode_disparity disparity invalid_disp)
  = map (encode_sample invalid_disp) (cv.data disparity).
Proof.
  unfold encode_disparity, cv.setTo, cv.convertTo_16U, cv.compare_eq; simpl.
  induction (cv.data disparity) as [|d l IH]; simpl; [reflexivity|].
  now rewrite IH.
Qed.

Lemma encode_at (disparity : cv.Mat) (invalid_disp y x : Z) :
  cv.at_ (encode_disparity disparity invalid_disp) y x
  = option_map (encode_sample invalid_disp) (cv.at_ disparity y x).
Proof.
  unfold cv.at_. rewrite encode_data.
  change (cv.rows (encode_disparity disparity invalid_disp))
    with (cv.rows disparity).
  change (cv.cols (encode_disparity disparity invalid_disp))
    with (cv.cols disparity).
  destruct ((0 <=? y) && (y <? cv.rows disparity) && (0 <=? x)
            && (x <? cv.cols disparity)); [|reflexivity].
  apply nth_error_map.
Qed.

End Encoder.

(** C3.  A 16-bit disparity sample [d] other than the sentinel is encoded,
    at the same pixel, as [d * 100] brought into the unsigned 16-bit range:
    it is [d * 100] itself when that fits, and the maximum 65535 when
    [d * 100] exceeds it. *)
Theorem encoder_scales_valid_samples
  (disparity : cv.Mat) (invalid_disp y x d : Z) :
  cv.at_ disparity y x = Some d ->
  is_short d ->
  d <> invalid_disp ->
  exists e,
    cv.at_ (encode_disparity disparity invalid_disp) y x = Some e
    /\ e = clamp_ushort (d * 100)
    /\ 0 <= e <= USHRT_MAX
    /\ (0 <= d * 100 <= USHRT_MAX -> e = d * 100)
    /\ (USHRT_MAX < d * 100 -> e = USHRT_MAX).
Proof.
  intros Hat _ Hd.
  exists (clamp_ushort (d * 100)).
  rewrite encode_at, Hat. simpl.
  rewrite (encode_sample_valid _ _ Hd).
  unfold clamp_ushort, USHRT_MAX.
  repeat split; lia.
Qed.

Lemma encoder_scales_valid_samples_witness :
  exists e,
    cv.at_ (encode_disparity (cv.mkMat 2 2 cv.CV_16S [3; -1; 700; -5]) (-1)) 1 0
    = Some e
    /\ e = clamp_ushort (700 * 100)
    /\ 0 <= e <= USHRT_MAX
    /\ (0 <= 700 * 100 <= USHRT_MAX -> e = 700 * 100)
    /\ (USHRT_MAX < 700 * 100 -> e = USHRT_MAX).
Proof.
  apply (encoder_scales_valid_samples
           (cv.mkMat 2 2 cv.CV_16S [3; -1; 700; -5]) (-1) 1 0 700).
  - reflexivity.
  - unfold is_short, SHRT_MIN, SHRT_MAX. lia.
  - lia.
Defined.

(** C9.  A negative 16-bit disparity sample other than the sentinel is
    encoded as 0, the conversion saturating at the lower bound; the encoded
    image then shows the same value there as at any pixel masked as
    invalid. *)
Theorem encoder_zeroes_negative_samples
  (disparity : cv.Mat) (invalid_disp y x d : Z) :
  cv.at_ disparity y x = Some d ->
  is_short d ->
  d < 0 ->
  d <> invalid_disp ->
  cv.saturate_cast_ushort (cv.cvRound (inject_Z d * 100 + 0)) = 0
  /\ cv.at_ (encode_disparity disparity invalid_disp) y x = Some 0
  /\ forall y' x',
       cv.at_ disparity y' x' = Some invalid_disp ->
       cv.at_ (encode_disparity disparity invalid_disp) y' x'
       = cv.at_ (encode_disparity disparity invalid_disp) y x.
Proof.
  intros Hat _ Hneg Hd.
  assert (Hz : cv.at_ (encode_disparity disparity invalid_disp) y x = Some 0).
  { rewrite encode_at, Hat. simpl.
    rewrite (encode_sample_valid _ _ Hd).
    unfold clamp_ushort, USHRT_MAX. f_equal. lia. }
  repeat split.
  - rewrite cvRound_scaled, saturate_cast_ushort_clamp.
    unfold clamp_ushort, USHRT_MAX. lia.
  - exact Hz.
  - intros y' x' Hinv. rewrite Hz.
    rewrite encode_at, Hinv. simpl. now rewrite encode_sample_invalid.
Qed.

Lemma encoder_zeroes_negative_samples_witness :
  cv.saturate_cast_ushort (cv.cvRound (inject_Z (-5) * 100 + 0)) = 0
  /\ cv.at_ (encode_disparity (cv.mkMat 2 2 cv.CV_16S [3; -1; 700; -5]) (-1)) 1 1
     = Some 0
  /\ forall y' x',
       cv.at_ (cv.mkMat 2 2 cv.CV_16S [3; -1; 700; -5]) y' x' = Some (-1) ->
       cv.at_ (encode_disparity (cv.mkMat 2 2 cv.CV_16S [3; -1; 700; -5]) (-1))
              y' x'
       = cv.at_ (encode_disparity (cv.mkMat 2 2 cv.CV_16S [3; -1; 700; -5]) (-1))
                1 1.
Proof.
  apply (encoder_zeroes_negative_samples
           (cv.mkMat 2 2 cv.CV_16S [3; -1; 700; -5]) (-1) 1 1 (-5)).
  - reflexivity.
  - unfold is_short, SHRT_MIN, SHRT_MAX. lia.
  - lia.
  - lia.
Defined.

(** ** Machine integers *)

Section Ints.

Lemma wrap_int_small (z : Z) : is_int z -> wrap_int z = z.
Proof.
  unfold is_int, INT_MIN, INT_MAX, wrap_int. intros H.
  rewrite Z.mod_small; lia.
Qed.

Lemma wrap_int_idem_l (a b : Z) : wrap_int (wrap_int a + b) = wrap_int (a + b).
Proof.
  unfold wrap_int.
  replace ((a + 2 ^ 31) mod 2 ^ 32 - 2 ^ 31 + b + 2 ^ 31)
    with ((a + 2 ^ 31) mod 2 ^ 32 + b) by ring.
  rewrite Zplus_mod_idemp_l.
  f_equal. f_equal. ring.
Qed.

(** The loop counter [frame_no - start_number] after [frame_no++]. *)
Lemma int_sub_succ (n start : Z) :
  int_sub n start + 1 <= INT_MAX ->
  INT_MIN <= int_sub n start ->
  int_sub (int_add n 1) start = int_sub n start + 1.
Proof.
  intros Hhi Hlo. unfold int_sub, int_add in *.
  replace (wrap_int (n + 1) - start) with (wrap_int (n + 1) + (- start)) by ring.
  rewrite wrap_int_idem_l.
  replace (n + 1 + - start) with ((n - start) + 1) by ring.
  rewrite <- wrap_int_idem_l.
  apply wrap_int_small. unfold is_int. lia.
Qed.

Lemma int_sub_diag (n : Z) : int_sub n n = 0.
Proof. unfold int_sub. now rewrite Z.sub_diag. Qed.

End Ints.

(** ** The batch runner *)

Section Movie.

Variable w : World.
Variable args : arguments.

Lemma frame_unreadable (n : Z) (s : state) :
  readable w args n = false ->
  stereosgm_movie.frame w args (engine w args)
    (get_invalid_disparity w (engine w args)) n s
  = (Normal Break, last_trace args n, s).
Proof.
  unfold readable. intros H.
  rewrite <- negb_orb in H. apply negb_false_iff in H.
  unfold stereosgm_movie.frame, bind, do_imread, emit, ret. simpl.
  now rewrite H.
Qed.

Lemma frame_readable (n : Z) (s : state) :
  readable w args n = true ->
  stereosgm_movie.frame w args (engine w args)
    (get_invalid_disparity w (engine w args)) n s
  = (Normal Continue, frame_trace w args n (clock_reads s),
     mkState (S (S (clock_reads s)))
             (cv.data (left_image w args n)) (cv.data (right_image w args n))
             (cv.data (disparity_of w args n))).
Proof.
  unfold readable. intros H.
  rewrite <- negb_orb in H. apply negb_true_iff in H.
  unfold stereosgm_movie.frame, bind, do_imread, emit, ret. simpl.
  rewrite H.
  unfold upload, now, sgm_execute, cudaDeviceSynchronize, download,
    do_imwrite, bind, emit, ret. simpl.
  unfold frame_trace, report, written_image, disparity_of, timed_call,
    elapsed, left_image, right_image. simpl.
  destruct (imwrite w _ _); reflexivity.
Qed.

(** The loop emits [loop_trace], whatever its fuel. *)
Lemma frames_trace (fuel : nat) :
  forall (n : Z) (s : state),
    snd (fst (stereosgm_movie.frames w args fuel (engine w args)
    (get_invalid_disparity w (engine w args)) n s))
    = loop_trace w args fuel n (clock_reads s).
Proof.
  induction fuel as [|fuel IH]; intros n s; [reflexivity|].
  simpl.
  destruct (int_sub n (start_number args) <? total_number args);
    [|reflexivity].
  unfold bind.
  destruct (readable w args n) eqn:R.
  - rewrite (frame_readable n s R).
    specialize (IH (int_add n 1)
      (mkState (S (S (clock_reads s)))
               (cv.data (left_image w args n))
               (cv.data (right_image w args n))
               (cv.data (disparity_of w args n)))).
    destruct (stereosgm_movie.frames w args fuel (engine w args)
    (get_invalid_disparity w (engine w args)) _ _)
      as [[r t] s'].
    simpl in *. now rewrite IH.
  - rewrite (frame_unreadable n s R). reflexivity.
Qed.

(** With more fuel than iterations left, the loop ends by itself. *)
Lemma frames_end (fuel : nat) :
  forall (n : Z) (s : state),
    0 <= int_sub n (start_number args) ->
    total_number args <= INT_MAX ->
    (Z.to_nat (total_number args - int_sub n (start_number args)) < fuel)%nat ->
    fst (fst (stereosgm_movie.frames w args fuel (engine w args)
    (get_invalid_disparity w (engine w args)) n s))
    = Normal tt.
Proof.
  induction fuel as [|fuel IH]; intros n s Hj Hmax Hfuel; [lia|].
  simpl.
  destruct (int_sub n (start_number args) <? total_number args) eqn:C;
    [|reflexivity].
  apply Z.ltb_lt in C.
  unfold bind.
  destruct (readable w args n) eqn:R.
  - rewrite (frame_readable n s R).
    assert (E : int_sub (int_add n 1) (start_number args)
                = int_sub n (start_number args) + 1).
    { apply int_sub_succ; unfold INT_MIN; lia. }
    specialize (IH (int_add n 1)
      (mkState (S (S (clock_reads s)))
               (cv.data (left_image w args n))
               (cv.data (right_image w args n))
               (cv.data (disparity_of w args n)))).
    rewrite E in IH.
    destruct (stereosgm_movie.frames w args fuel (engine w args)
    (get_invalid_disparity w (engine w args)) _ _)
      as [[r t] s'].
    simpl in *. apply IH; lia.
  - rewrite (frame_unreadable n s R). reflexivity.
Qed.

End Movie.

Section MovieRun.

Variable w : World.
Variable args : arguments.

Lemma movie_run_help :
  help args = true ->
  run (stereosgm_movie.main w args) (fun r => r) = (Some 0, [PrintMessage]).
Proof.
  intros H. unfold run, stereosgm_movie.main, stereosgm_movie.main_on.
  now rewrite H.
Qed.

Lemma movie_run_check :
  help args = false -> check args = false ->
  run (stereosgm_movie.main w args) (fun r => r)
  = (Some EXIT_FAILURE, [PrintErrors; PrintMessage]).
Proof.
  intros H C. unfold run, stereosgm_movie.main, stereosgm_movie.main_on.
  now rewrite H, C.
Qed.

Lemma movie_pipeline_invalid (fuel : nat) :
  passes_validation w args = false ->
  stereosgm_movie.pipeline w args fuel initial_state
  = (Exit EXIT_FAILURE,
     [Imread (image_format_L args) (start_number args);
      Imread (image_format_R args) (start_number args);
      Cerr (failure_message w args)],
     initial_state).
Proof.
  unfold passes_validation, readable, compatible, supported_disp_size,
    failure_message, left_image, right_image.
  intros V.
  unfold stereosgm_movie.pipeline, bind, do_imread, emit, ret, ASSERT_MSG,
    exit. simpl.
  destruct (negb (cv.empty (imread w (image_format_L args) (start_number args)))
            && negb (cv.empty (imread w (image_format_R args) (start_number args))));
    simpl in *; [|reflexivity].
  destruct (cv.size_eq _ _ && (_ =? _)); simpl in *; [|reflexivity].
  destruct ((_ =? cv.CV_8U) || (_ =? cv.CV_16U)); simpl in *; [|reflexivity].
  rewrite V. reflexivity.
Qed.

Lemma movie_run_invalid :
  past_command_line args = true ->
  passes_validation w args = false ->
  exists msg,
    run (stereosgm_movie.main w args) (fun r => r)
    = (Some EXIT_FAILURE,
       [Imread (image_format_L args) (start_number args);
        Imread (image_format_R args) (start_number args);
        Cerr msg]).
Proof.
  intros P V. apply andb_true_iff in P as [H C].
  apply negb_true_iff in H.
  exists (failure_message w args).
  unfold run, stereosgm_movie.main, stereosgm_movie.main_on.
  rewrite H, C. change (negb true) with false. cbv iota.
  now rewrite (movie_pipeline_invalid (S (Z.to_nat (total_number args))) V).
Qed.

Lemma movie_pipeline_valid (fuel : nat) :
  passes_validation w args = true ->
  exists r s,
    stereosgm_movie.frames w args fuel (engine w args)
      (get_invalid_disparity w (engine w args)) (start_number args)
      initial_state = (r, loop_trace w args fuel (start_number args) 0, s)
    /\ stereosgm_movie.pipeline w args fuel initial_state
       = (match r with
          | Normal _ => Normal 0
          | Exit status => Exit status
          | OutOfFuel => OutOfFuel
          end,
          startup_trace w args ++ loop_trace w args fuel (start_number args) 0,
          s).
Proof.
  unfold passes_validation, readable, compatible, supported_disp_size.
  intros V.
  apply andb_true_iff in V as [V V3].
  apply andb_true_iff in V as [V1 V2].
  apply andb_true_iff in V2 as [V2 V2'].
  pose proof (frames_trace w args fuel (start_number args) initial_state) as T.
  destruct (stereosgm_movie.frames w args fuel (engine w args)
              (get_invalid_disparity w (engine w args)) (start_number args)
              initial_state) as [[r t] s] eqn:F.
  simpl in T. subst t.
  exists r, s. split; [reflexivity|].
  unfold stereosgm_movie.pipeline, bind, do_imread, emit, ret, ASSERT_MSG,
    exit, new_StereoSGM, new_device_buffer. simpl.
  rewrite V1, V2, V2', V3. simpl.
  unfold bind, emit, ret. simpl.
  change (mkStereoSGM _ _ _ _ _) with (engine w args).
  change (mkState 0 [] [] []) with initial_state.
  rewrite F.
  destruct r; simpl; rewrite ?app_nil_r; reflexivity.
Qed.

Lemma movie_run_valid :
  past_command_line args = true ->
  passes_validation w args = true ->
  total_number args <= INT_MAX ->
  run (stereosgm_movie.main w args) (fun r => r)
  = (Some 0,
     startup_trace w args
     ++ loop_trace w args (S (Z.to_nat (total_number args)))
                   (start_number args) 0).
Proof.
  intros P V Hmax.
  apply andb_true_iff in P as [H C]. apply negb_true_iff in H.
  destruct (movie_pipeline_valid (S (Z.to_nat (total_number args))) V)
    as (r & s & F & E).
  unfold run, stereosgm_movie.main, stereosgm_movie.main_on.
  rewrite H, C. change (negb true) with false. cbv iota.
  rewrite E.
  pose proof (frames_end w args (S (Z.to_nat (total_number args)))
                (start_number args) initial_state) as T.
  rewrite F in T. simpl in T.
  rewrite int_sub_diag in T.
  rewrite T; [reflexivity | lia | exact Hmax | lia].
Qed.

(** The events of a run that passes its checks, whatever [total_number]. *)
Lemma movie_trace_valid :
  past_command_line args = true ->
  passes_validation w args = true ->
  stereosgm_movie.trace w args
  = startup_trace w args
    ++ loop_trace w args (S (Z.to_nat (total_number args)))
                  (start_number args) 0.
Proof.
  intros P V.
  apply andb_true_iff in P as [H C]. apply negb_true_iff in H.
  destruct (movie_pipeline_valid (S (Z.to_nat (total_number args))) V)
    as (r & s & F & E).
  unfold stereosgm_movie.trace, run, stereosgm_movie.main,
    stereosgm_movie.main_on.
  rewrite H, C. change (negb true) with false. cbv iota.
  rewrite E. destruct r; reflexivity.
Qed.

End MovieRun.

Section TraceReading.

Lemma processed_frames_app (a b : list event) :
  processed_frames (a ++ b) = processed_frames a ++ processed_frames b.
Proof.
  induction a as [|e a IH]; [reflexivity|].
  destruct e; simpl; now rewrite ?IH.
Qed.

Lemma index_range_succ (n : Z) (k : nat) :
  index_range n (S k) = n :: index_range (n + 1) k.
Proof.
  unfold index_range. simpl. rewrite Z.add_0_r. f_equal.
  rewrite <- seq_shift, map_map.
  apply map_ext. intros i. lia.
Qed.

Lemma in_index_range (n x : Z) (k : nat) :
  In x (index_range n k) <-> n <= x < n + Z.of_nat k.
Proof.
  unfold index_range. rewrite in_map_iff. split.
  - intros (i & <- & Hi). apply in_seq in Hi. lia.
  - intros H. exists (Z.to_nat (x - n)). split; [lia|].
    apply in_seq. lia.
Qed.

Lemma index_range_sorted (k : nat) :
  forall n, StronglySorted Z.lt (index_range n k).
Proof.
  induction k as [|k IH]; intros n.
  - constructor.
  - rewrite index_range_succ. constructor; [apply IH|].
    apply Forall_forall. intros x Hx. apply in_index_range in Hx. lia.
Qed.

End TraceReading.

Section MovieFrames.

Variable w : World.
Variable args : arguments.

Lemma processed_frame_trace (n : Z) (c : nat) :
  processed_frames (frame_trace w args n c) = [n].
Proof.
  unfold frame_trace, report. simpl.
  destruct (imwrite w _ _); reflexivity.
Qed.

Lemma imwrites_frame_trace (n : Z) (c : nat) :
  List.length (filter is_imwrite (frame_trace w args n c)) = 1%nat.
Proof.
  unfold frame_trace, report. simpl.
  destruct (imwrite w _ _); reflexivity.
Qed.

Lemma loop_trace_step (fuel : nat) (n : Z) (c : nat) :
  loop_trace w args (S fuel) n c
  = if int_sub n (start_number args) <? total_number args then
      if readable w args n
      then frame_trace w args n c
           ++ loop_trace w args fuel (int_add n 1) (S (S c))
      else last_trace args n
    else [].
Proof. reflexivity. Qed.

(** The loop does the same with any fuel that is enough. *)
Lemma loop_trace_fuel (fuel1 : nat) :
  forall (fuel2 : nat) (n : Z) (c : nat),
    0 <= int_sub n (start_number args) ->
    total_number args <= INT_MAX ->
    (Z.to_nat (total_number args - int_sub n (start_number args)) < fuel1)%nat ->
    (Z.to_nat (total_number args - int_sub n (start_number args)) < fuel2)%nat ->
    loop_trace w args fuel1 n c = loop_trace w args fuel2 n c.
Proof.
  induction fuel1 as [|fuel1 IH]; intros fuel2 n c Hj Hmax H1 H2; [lia|].
  destruct fuel2 as [|fuel2]; [lia|].
  rewrite !loop_trace_step.
  destruct (int_sub n (start_number args) <? total_number args) eqn:C;
    [|reflexivity].
  apply Z.ltb_lt in C.
  destruct (readable w args n); [|reflexivity].
  f_equal.
  assert (E : int_sub (int_add n 1) (start_number args)
              = int_sub n (start_number args) + 1).
  { apply int_sub_succ; unfold INT_MIN; lia. }
  apply IH; rewrite ?E; lia.
Qed.

(** The run is the same with any fuel that is enough. *)
Lemma movie_main_on_fuel (fuel : nat) :
  total_number args <= INT_MAX ->
  (Z.to_nat (total_number args) < fuel)%nat ->
  run (stereosgm_movie.main_on w args fuel) (fun r => r)
  = run (stereosgm_movie.main w args) (fun r => r).
Proof.
  intros Hmax Hfuel.
  unfold stereosgm_movie.main, run, stereosgm_movie.main_on.
  destruct (help args); [reflexivity|].
  destruct (negb (check args)); [reflexivity|].
  destruct (passes_validation w args) eqn:V.
  - destruct (movie_pipeline_valid w args fuel V) as (r1 & s1 & F1 & E1).
    destruct (movie_pipeline_valid w args (S (Z.to_nat (total_number args))) V)
      as (r2 & s2 & F2 & E2).
    rewrite E1, E2.
    pose proof (frames_end w args fuel (start_number args) initial_state) as T1.
    pose proof (frames_end w args (S (Z.to_nat (total_number args)))
                  (start_number args) initial_state) as T2.
    rewrite F1 in T1. rewrite F2 in T2. cbn [fst] in T1, T2.
    rewrite int_sub_diag in T1, T2.
    rewrite T1, T2 by lia.
    rewrite (loop_trace_fuel fuel (S (Z.to_nat (total_number args))));
      rewrite ?int_sub_diag; try lia.
    reflexivity.
  - now rewrite !(movie_pipeline_invalid w args _ V).
Qed.

(** A run that does not reach the loop processes no frame and writes no
    file. *)
Lemma movie_no_loop :
  past_command_line args && passes_validation w args = false ->
  exists status t,
    run (stereosgm_movie.main w args) (fun r => r) = (Some status, t)
    /\ processed_frames t = []
    /\ filter is_imwrite t = []
    /\ filter is_alloc t = []
    /\ filter is_sgm_create t = []
    /\ filter is_execute t = []
    /\ (help args = false -> status = EXIT_FAILURE).
Proof.
  intros H.
  destruct (help args) eqn:Hh.
  { rewrite (movie_run_help w args Hh). do 2 eexists.
    repeat split; try reflexivity. discriminate. }
  destruct (check args) eqn:Hc.
  2:{ rewrite (movie_run_check w args Hh Hc). do 2 eexists.
      repeat split; reflexivity. }
  assert (P : past_command_line args = true).
  { unfold past_command_line. now rewrite Hh, Hc. }
  rewrite P in H. simpl in H.
  destruct (movie_run_invalid w args P H) as (msg & E).
  rewrite E. do 2 eexists. repeat split; reflexivity.
Qed.

End MovieFrames.

Section MovieFramesInt.

Variable w : World.
Variable args : arguments.

Lemma int_sub_wrapped (start : Z) (j : nat) :
  Z.of_nat j <= INT_MAX ->
  int_sub (wrap_int (start + Z.of_nat j)) start = Z.of_nat j.
Proof.
  intros Hj. unfold int_sub.
  replace (wrap_int (start + Z.of_nat j) - start)
    with (wrap_int (start + Z.of_nat j) + - start) by ring.
  rewrite wrap_int_idem_l.
  replace (start + Z.of_nat j + - start) with (Z.of_nat j) by ring.
  apply wrap_int_small. unfold is_int, INT_MIN, INT_MAX in *. lia.
Qed.

Lemma int_add_wrapped (start : Z) (j : nat) :
  int_add (wrap_int (start + Z.of_nat j)) 1
  = wrap_int (start + Z.of_nat (S j)).
Proof.
  unfold int_add. rewrite wrap_int_idem_l. f_equal. lia.
Qed.

(** The frames of the loop, counted from its [j]-th iteration, as long as
    the counter is not taken past [INT_MAX] to a frame that is processed. *)
Lemma loop_trace_frames_int (fuel : nat) :
  forall (j c : nat),
    is_int (start_number args) ->
    total_number args <= INT_MAX ->
    Z.of_nat j <= total_number args ->
    start_number args + Z.of_nat j <= INT_MAX + 1 ->
    (Z.to_nat (total_number args) - j < fuel)%nat ->
    (start_number args + total_number args <= INT_MAX + 1
     \/ exists m, start_number args + Z.of_nat j <= m <= INT_MAX
                  /\ readable w args m = false) ->
    exists k : nat,
      Z.of_nat (j + k) <= total_number args
      /\ processed_frames
           (loop_trace w args fuel
                       (wrap_int (start_number args + Z.of_nat j)) c)
         = index_range (start_number args + Z.of_nat j) k
      /\ List.length
           (filter is_imwrite
                   (loop_trace w args fuel
                               (wrap_int (start_number args + Z.of_nat j)) c))
         = k
      /\ (forall n, In n (index_range (start_number args + Z.of_nat j) k) ->
                    readable w args n = true)
      /\ (Z.of_nat (j + k) = total_number args
          \/ readable w args (start_number args + Z.of_nat (j + k)) = false).
Proof.
  induction fuel as [|fuel IH]; intros j c Hs Htot Hj Hinv Hfuel Hno; [lia|].
  rewrite loop_trace_step, int_sub_wrapped by lia.
  destruct (Z.of_nat j <? total_number args) eqn:C.
  - apply Z.ltb_lt in C.
    assert (Hint : start_number args + Z.of_nat j <= INT_MAX).
    { destruct Hno as [Hno | (m & Hm & _)]; lia. }
    rewrite (wrap_int_small (start_number args + Z.of_nat j))
      by (unfold is_int, INT_MIN, INT_MAX in *; lia).
    destruct (readable w args (start_number args + Z.of_nat j)) eqn:R.
    + assert (En : int_add (start_number args + Z.of_nat j) 1
                   = wrap_int (start_number args + Z.of_nat (S j)))
        by (unfold int_add; f_equal; lia).
      rewrite En.
      destruct (IH (S j) (S (S c)) Hs Htot)
        as (k & Hk & Hp & Hw & Hr & Hstop); try lia.
      { destruct Hno as [Hno | (m & Hm & Rm)]; [now left | right].
        exists m. split; [|exact Rm].
        assert (m <> start_number args + Z.of_nat j)
          by (intros ->; rewrite R in Rm; discriminate).
        lia. }
      exists (S k).
      rewrite processed_frames_app, processed_frame_trace, Hp.
      rewrite filter_app, length_app, imwrites_frame_trace, Hw.
      rewrite index_range_succ.
      replace (start_number args + Z.of_nat j + 1)
        with (start_number args + Z.of_nat (S j)) by lia.
      replace (j + S k)%nat with (S j + k)%nat by lia.
      split; [exact Hk|]. split; [reflexivity|]. split; [reflexivity|].
      split; [|exact Hstop].
      intros n [<- | Hn]; [exact R | now apply Hr].
    + exists 0%nat. rewrite Nat.add_0_r.
      split; [lia|]. split; [reflexivity|]. split; [reflexivity|].
      split; [intros n []|now right].
  - apply Z.ltb_ge in C.
    exists 0%nat. rewrite Nat.add_0_r.
    split; [lia|]. split; [reflexivity|]. split; [reflexivity|].
    split; [intros n []|left; lia].
Qed.

End MovieFramesInt.

(** C1, as the code has it.  In a run of the batch runner with [int]
    arguments, a non-negative [start_number] and a count [total_number], in
    which the frame counter is not taken past the largest [int] to a frame
    that is then processed (the range ends by [INT_MAX], or a frame on the
    way to [INT_MAX] cannot be read), the run ends, the frames processed are
    [start_number], [start_number + 1], ... in this strictly increasing
    order, [k] of them; every one of them could be read; the loop stopped
    because [k] reached [total_number] or because frame [start_number + k]
    could not be read; and [cv::imwrite] was called [k] times, which is at
    most [total_number]. *)
Theorem batch_frames_in_order (w : World) (args : arguments) :
  0 <= start_number args ->
  0 <= total_number args ->
  is_int (start_number args) ->
  is_int (total_number args) ->
  counter_stays_int w args ->
  exists (status : Z) (k : nat),
    stereosgm_movie.status w args = Some status
    /\ processed_frames (stereosgm_movie.trace w args)
       = index_range (start_number args) k
    /\ StronglySorted Z.lt (processed_frames (stereosgm_movie.trace w args))
    /\ (forall n, In n (processed_frames (stereosgm_movie.trace w args)) ->
                  readable w args n = true)
    /\ (if past_command_line args && passes_validation w args
        then Z.of_nat k = total_number args
             \/ readable w args (start_number args + Z.of_nat k) = false
        else k = 0%nat)
    /\ List.length (filter is_imwrite (stereosgm_movie.trace w args)) = k
    /\ Z.of_nat k <= total_number args.
Proof.
  intros Hstart Htotal Hs Ht Hno.
  unfold stereosgm_movie.status, stereosgm_movie.trace.
  destruct (past_command_line args && passes_validation w args) eqn:E.
  - apply andb_true_iff in E as [P V].
    rewrite (movie_run_valid w args P V) by (unfold is_int in *; lia).
    cbn [fst snd].
    destruct (loop_trace_frames_int w args (S (Z.to_nat (total_number args)))
                0 0 Hs)
      as (k & Hk & Hp & Hw & Hr & Hstop);
      try (unfold is_int, INT_MIN, INT_MAX in *; lia).
    { change (Z.of_nat 0) with 0. rewrite Z.add_0_r. exact Hno. }
    change (Z.of_nat 0) with 0 in *. rewrite Z.add_0_r in *.
    change (0 + k)%nat with k in *.
    rewrite (wrap_int_small _ Hs) in Hp, Hw.
    exists 0, k.
    rewrite processed_frames_app, filter_app, length_app.
    change (processed_frames (startup_trace w args)) with (@nil Z).
    change (filter is_imwrite (startup_trace w args)) with (@nil event).
    cbn [app List.length Nat.add]. rewrite Hp.
    split; [reflexivity|]. split; [reflexivity|].
    split; [apply index_range_sorted|].
    split; [exact Hr|]. split; [exact Hstop|]. split; [exact Hw|exact Hk].
  - destruct (movie_no_loop w args E)
      as (status & t & R & Hp & Hw & _).
    rewrite R. cbn [fst snd]. exists status, 0%nat.
    rewrite Hp, Hw.
    split; [reflexivity|]. split; [reflexivity|]. split; [constructor|].
    split; [intros n []|]. split; [reflexivity|]. split; [reflexivity|].
    simpl. lia.
Qed.

Lemma batch_frames_in_order_witness :
  exists (status : Z) (k : nat),
    stereosgm_movie.status late_world (example_arguments 2147483000 1000)
    = Some status
    /\ processed_frames
         (stereosgm_movie.trace late_world (example_arguments 2147483000 1000))
       = index_range 2147483000 k
    /\ StronglySorted Z.lt
         (processed_frames
            (stereosgm_movie.trace late_world
                                   (example_arguments 2147483000 1000)))
    /\ (forall n,
          In n (processed_frames
                  (stereosgm_movie.trace late_world
                                         (example_arguments 2147483000 1000))) ->
          readable late_world (example_arguments 2147483000 1000) n = true)
    /\ (if past_command_line (example_arguments 2147483000 1000)
           && passes_validation late_world (example_arguments 2147483000 1000)
        then Z.of_nat k = 1000
             \/ readable late_world (example_arguments 2147483000 1000)
                         (2147483000 + Z.of_nat k) = false
        else k = 0%nat)
    /\ List.length
         (filter is_imwrite
                 (stereosgm_movie.trace late_world
                                        (example_arguments 2147483000 1000)))
       = k
    /\ Z.of_nat k <= 1000.
Proof.
  apply (batch_frames_in_order late_world (example_arguments 2147483000 1000)).
  - simpl. lia.
  - simpl. lia.
  - unfold is_int, INT_MIN, INT_MAX. simpl. lia.
  - unfold is_int, INT_MIN, INT_MAX. simpl. lia.
  - right. exists 2147483003. split; [unfold INT_MAX; simpl; lia | reflexivity].
Defined.

(** C1, as the claim has it, fails: with every frame readable,
    [start_number] the largest [int] and [total_number] 2, the frame counter
    wraps around and the frames processed are 2147483647 and then
    -2147483648. *)
Lemma batch_frame_counter_wraps :
  ~ processes_frames_in_order endless_world (example_arguments 2147483647 2).
Proof.
  unfold processes_frames_in_order. intros H.
  destruct H as (k & Hk & _); [simpl; lia | simpl; lia |].
  assert (E : processed_frames
                (stereosgm_movie.trace endless_world
                                       (example_arguments 2147483647 2))
              = [2147483647; -2147483648]) by (vm_compute; reflexivity).
  rewrite E in Hk. unfold index_range in Hk.
  pose proof (f_equal (@List.length Z) Hk) as L.
  rewrite length_map, length_seq in L. cbn [List.length] in L. subst k.
  cbn [seq map] in Hk.
  apply (f_equal (fun l => nth 1 l 0)) in Hk.
  cbn [nth start_number example_arguments] in Hk. lia.
Qed.

Section MovieSegments.

Variable w : World.
Variable args : arguments.

Lemma loop_trace_segment (fuel : nat) :
  forall (m n : Z) (c : nat),
    In n (processed_frames (loop_trace w args fuel m c)) ->
    exists pre post c',
      loop_trace w args fuel m c = pre ++ frame_trace w args n c' ++ post.
Proof.
  induction fuel as [|fuel IH]; intros m n c Hin; [destruct Hin|].
  rewrite loop_trace_step in *.
  destruct (int_sub m (start_number args) <? total_number args);
    [|destruct Hin].
  destruct (readable w args m); [|destruct Hin].
  rewrite processed_frames_app, processed_frame_trace in Hin.
  destruct Hin as [<- | Hin].
  - exists [], (loop_trace w args fuel (int_add m 1) (S (S c))), c.
    reflexivity.
  - destruct (IH _ _ _ Hin) as (pre & post & c' & E).
    exists (frame_trace w args m c ++ pre), post, c'.
    rewrite E. now rewrite app_assoc.
Qed.

Lemma movie_trace_cases :
  (past_command_line args && passes_validation w args = true
   /\ stereosgm_movie.trace w args
      = startup_trace w args
        ++ loop_trace w args (S (Z.to_nat (total_number args)))
                      (start_number args) 0)
  \/ (past_command_line args && passes_validation w args = false
      /\ processed_frames (stereosgm_movie.trace w args) = []).
Proof.
  destruct (past_command_line args && passes_validation w args) eqn:E.
  - left. apply andb_true_iff in E as [P V].
    split; [reflexivity | now apply movie_trace_valid].
  - right. split; [reflexivity|].
    destruct (movie_no_loop w args E) as (status & t & R & Hp & _).
    unfold stereosgm_movie.trace. now rewrite R.
Qed.

(** The events of a processed frame stand together in the trace. *)
Lemma movie_trace_segment (n : Z) :
  In n (processed_frames (stereosgm_movie.trace w args)) ->
  exists pre post c,
    stereosgm_movie.trace w args = pre ++ frame_trace w args n c ++ post.
Proof.
  intros Hin.
  destruct movie_trace_cases as [[_ E] | [_ E]].
  - rewrite E in *.
    rewrite processed_frames_app in Hin.
    change (processed_frames (startup_trace w args)) with (@nil Z) in Hin.
    destruct (loop_trace_segment _ _ _ _ Hin) as (pre & post & c & L).
    exists (startup_trace w args ++ pre), post, c.
    rewrite L. now rewrite app_assoc.
  - rewrite E in Hin. destruct Hin.
Qed.

End MovieSegments.

Section Rates.

Lemma double_div_finite (a : Q) (d : Z) :
  d <> 0 ->
  exists v, double_div a d = Finite v /\ (v * inject_Z d == a)%Q.
Proof.
  intros Hd. unfold double_div.
  apply Z.eqb_neq in Hd. rewrite Hd.
  exists (a / inject_Z d)%Q. split; [reflexivity|].
  apply Z.eqb_neq in Hd.
  field. intros H0.
  apply Hd. unfold Qeq in H0. simpl in H0. lia.
Qed.

End Rates.

(** C7.  For every frame the batch runner processes, the events of the
    frame stand in this order: both uploads, the first clock reading, the
    matching call, the device synchronisation, the second clock reading, the
    download, and the writing of the encoded result.  Nothing but the
    matching call and the synchronisation lies between the two readings,
    which are consecutive readings of the clock.  The rate on the progress
    line is one million divided by the microseconds between the two
    readings (infinite when they are zero). *)
Theorem batch_rate_window (w : World) (args : arguments) (n : Z) :
  In n (processed_frames (stereosgm_movie.trace w args)) ->
  exists pre post c line,
    let t1 := clock w c in
    let t2 := clock w (S c) in
    let duration := microseconds w (t2 - t1) in
    stereosgm_movie.trace w args
    = pre
      ++ [Upload d_I1 (cv.data (imread w (image_format_L args) n));
          Upload d_I2 (cv.data (imread w (image_format_R args) n));
          Now t1; Execute; DeviceSynchronize; Now t2;
          Download d_disparity;
          Imwrite (stereosgm_movie.full_path args n)
                  (encode_disparity (disparity_of w args n)
                                    (get_invalid_disparity w (engine w args)));
          line]
      ++ post
    /\ (forall frame_no path precision fps,
          line = CoutSaved frame_no path precision fps ->
          frame_no = n
          /\ fps = double_div 1000000 duration
          /\ (duration = 0 -> fps = Infinity)
          /\ (duration <> 0 ->
              exists v, fps = Finite v
                        /\ (v * inject_Z duration == 1000000)%Q))
    /\ ((exists fps, line = CoutSaved n (stereosgm_movie.full_path args n) 2 fps)
        \/ (exists what,
              line = CerrSaveError n (stereosgm_movie.full_path args n) what)).
Proof.
  intros Hin.
  destruct (movie_trace_segment w args n Hin) as (pre & post & c & E).
  exists (pre ++ [Imread (image_format_L args) n;
                  Imread (image_format_R args) n]),
         post, c, (report w args n c).
  cbv zeta. split; [|split].
  - rewrite E. rewrite <- app_assoc. reflexivity.
  - unfold report, elapsed.
    destruct (imwrite w _ _); intros frame_no path precision fps Hline;
      try discriminate; injection Hline as <- <- <- <-;
      (split; [reflexivity|]); (split; [reflexivity|]);
      (split; [intros ->; reflexivity | apply double_div_finite]).
  - unfold report.
    destruct (imwrite w _ _); [left | left | right]; eexists; reflexivity.
Qed.

Lemma batch_rate_window_witness :
  exists pre post c line,
    let t1 := clock example_world c in
    let t2 := clock example_world (S c) in
    let duration := microseconds example_world (t2 - t1) in
    stereosgm_movie.trace example_world (example_arguments 0 5)
    = pre
      ++ [Upload d_I1 [10; 20; 30; 40];
          Upload d_I2 [10; 20; 30; 40];
          Now t1; Execute; DeviceSynchronize; Now t2;
          Download d_disparity;
          Imwrite "out/disparity_0001.png"
                  (encode_disparity
                     (disparity_of example_world (example_arguments 0 5) 1)
                     (-1));
          line]
      ++ post
    /\ (forall frame_no path precision fps,
          line = CoutSaved frame_no path precision fps ->
          frame_no = 1
          /\ fps = double_div 1000000 duration
          /\ (duration = 0 -> fps = Infinity)
          /\ (duration <> 0 ->
              exists v, fps = Finite v
                        /\ (v * inject_Z duration == 1000000)%Q))
    /\ ((exists fps, line = CoutSaved 1 "out/disparity_0001.png" 2 fps)
        \/ (exists what,
              line = CerrSaveError 1 "out/disparity_0001.png" what)).
Proof.
  apply (batch_rate_window example_world (example_arguments 0 5) 1).
  vm_compute. right. left. reflexivity.
Defined.

(** C8, evaluated where the code departs from it.  In [unwritable_world]
    every [cv::imwrite] returns [false].  The loop goes on to the next
    frames and the run ends with status 0, but no failure is reported: the
    line printed for frame 0 is the line of a saved frame, and no line goes
    to [std::cerr]. *)
Theorem batch_write_failure_unreported :
  imwrite unwritable_world "out/disparity_0000.png"
          (written_image unwritable_world (example_arguments 0 5) 0)
  = NotWritten
  /\ In (CoutSaved 0 "out/disparity_0000.png" 2 (Finite (1000000 # 2500)))
        (stereosgm_movie.trace unwritable_world (example_arguments 0 5))
  /\ filter is_error_line
            (stereosgm_movie.trace unwritable_world (example_arguments 0 5))
     = []
  /\ processed_frames
       (stereosgm_movie.trace unwritable_world (example_arguments 0 5))
     = [0; 1; 2]
  /\ stereosgm_movie.status unwritable_world (example_arguments 0 5) = Some 0.
Proof.
  split; [reflexivity|].
  split; [vm_compute; do 16 right; left; reflexivity|].
  split; [reflexivity|]. split; reflexivity.
Qed.

(** What the code does with the three answers of [cv::imwrite]: only a
    thrown [cv::Exception] is reported as a failure; a returned [false] is
    reported like a returned [true]. *)
Lemma report_by_write_result (w : World) (args : arguments) (n : Z) (c : nat) :
  match imwrite w (stereosgm_movie.full_path args n) (written_image w args n)
  with
  | Throws what =>
      report w args n c
      = CerrSaveError n (stereosgm_movie.full_path args n) what
  | Written | NotWritten =>
      is_error_line (report w args n c) = false
  end.
Proof. unfold report. destruct (imwrite w _ _); reflexivity. Qed.

(** C10.  With [total_number] zero or negative the batch runner still
    begins by loading the pair at [start_number] and checking it.  When the
    pair cannot be read or is not compatible the run fails; otherwise it sets
    up the engine and the buffers, processes no frame, writes nothing and
    ends with status 0. *)
Theorem batch_validates_first_pair_without_frames
  (w : World) (args : arguments) :
  total_number args <= 0 ->
  past_command_line args = true ->
  firstn 2 (stereosgm_movie.trace w args)
  = [Imread (image_format_L args) (start_number args);
     Imread (image_format_R args) (start_number args)]
  /\ processed_frames (stereosgm_movie.trace w args) = []
  /\ filter is_upload (stereosgm_movie.trace w args) = []
  /\ filter is_execute (stereosgm_movie.trace w args) = []
  /\ filter is_imwrite (stereosgm_movie.trace w args) = []
  /\ (readable w args (start_number args)
      && compatible w args (start_number args) = false ->
      stereosgm_movie.status w args = Some EXIT_FAILURE
      /\ filter is_alloc (stereosgm_movie.trace w args) = [])
  /\ (passes_validation w args = true ->
      stereosgm_movie.status w args = Some 0
      /\ stereosgm_movie.trace w args = startup_trace w args).
Proof.
  intros Htotal P.
  unfold stereosgm_movie.status, stereosgm_movie.trace.
  destruct (passes_validation w args) eqn:V.
  - rewrite (movie_run_valid w args P V) by (unfold INT_MAX; lia).
    rewrite loop_trace_step, int_sub_diag.
    assert (C : (0 <? total_number args) = false) by (apply Z.ltb_ge; lia).
    rewrite C, app_nil_r. cbn [fst snd].
    repeat (split; [reflexivity|]).
    split; [|split; reflexivity].
    intros H. unfold passes_validation in V.
    apply andb_true_iff in V as [V _]. rewrite V in H. discriminate.
  - destruct (movie_run_invalid w args P V) as (msg & E).
    rewrite E. cbn [fst snd].
    repeat (split; [reflexivity|]).
    split; [intros _; split; reflexivity | discriminate].
Qed.

Lemma batch_validates_first_pair_without_frames_witness :
  firstn 2 (stereosgm_movie.trace mixed_world (example_arguments 1 0))
  = [Imread "left_%d.png" 1; Imread "right_%d.png" 1]
  /\ processed_frames (stereosgm_movie.trace mixed_world (example_arguments 1 0))
     = []
  /\ filter is_imwrite (stereosgm_movie.trace mixed_world (example_arguments 1 0))
     = []
  /\ stereosgm_movie.status mixed_world (example_arguments 1 0)
     = Some EXIT_FAILURE
  /\ stereosgm_movie.status example_world (example_arguments 1 0) = Some 0.
Proof.
  destruct (batch_validates_first_pair_without_frames
              mixed_world (example_arguments 1 0))
    as (H1 & H2 & _ & _ & H5 & H6 & _); [simpl; lia | reflexivity |].
  destruct (batch_validates_first_pair_without_frames
              example_world (example_arguments 1 0))
    as (_ & _ & _ & _ & _ & _ & H7); [simpl; lia | reflexivity |].
  split; [exact H1|]. split; [exact H2|]. split; [exact H5|].
  split; [apply H6; reflexivity | apply H7; reflexivity].
Defined.

Section MovieImages.

Variable w : World.
Variable args : arguments.

Lemma frame_trace_imwrites (n : Z) (c : nat) (path : string) (img : cv.Mat) :
  In (Imwrite path img) (frame_trace w args n c) ->
  path = stereosgm_movie.full_path args n /\ img = written_image w args n.
Proof.
  unfold frame_trace, timed_call, report. simpl.
  destruct (imwrite w _ _); intros Hin;
    repeat match goal with
           | H : _ \/ _ |- _ => destruct H as [H | H]
           | H : False |- _ => destruct H
           | H : _ = Imwrite _ _ |- _ =>
               first [discriminate H
                     | injection H as <- <-; split; reflexivity]
           end.
Qed.

Lemma loop_trace_imwrites (fuel : nat) :
  forall (m : Z) (c : nat) (path : string) (img : cv.Mat),
    In (Imwrite path img) (loop_trace w args fuel m c) ->
    exists n,
      path = stereosgm_movie.full_path args n
      /\ img = written_image w args n.
Proof.
  induction fuel as [|fuel IH]; intros m c path img Hin; [destruct Hin|].
  rewrite loop_trace_step in Hin.
  destruct (int_sub m (start_number args) <? total_number args);
    [|destruct Hin].
  destruct (readable w args m).
  - apply in_app_or in Hin as [Hin | Hin]; [|now apply (IH _ _ _ _ Hin)].
    exists m. now apply frame_trace_imwrites with (c := c).
  - simpl in Hin.
    repeat match goal with
           | H : _ \/ _ |- _ => destruct H as [H | H]
           | H : False |- _ => destruct H
           | H : _ = Imwrite _ _ |- _ => discriminate H
           end.
Qed.

(** Every image the batch runner writes is the encoding of the disparity
    map of a frame, with the sentinel the engine gives. *)
Lemma movie_written_images (path : string) (img : cv.Mat) :
  In (Imwrite path img) (stereosgm_movie.trace w args) ->
  exists n,
    path = stereosgm_movie.full_path args n
    /\ img = encode_disparity (disparity_of w args n)
                              (get_invalid_disparity w (engine w args)).
Proof.
  intros Hin.
  destruct (past_command_line args && passes_validation w args) eqn:E.
  - apply andb_true_iff in E as [P V].
    rewrite (movie_trace_valid w args P V) in Hin.
    apply in_app_or in Hin as [Hin | Hin].
    + simpl in Hin.
      repeat match goal with
             | H : _ \/ _ |- _ => destruct H as [H | H]
             | H : False |- _ => destruct H
             | H : _ = Imwrite _ _ |- _ => discriminate H
             end.
    + apply (loop_trace_imwrites _ _ _ _ _ Hin).
  - destruct (movie_no_loop w args E) as (status & t & R & _ & Hw & _).
    unfold stereosgm_movie.trace in Hin. rewrite R in Hin. cbn [snd] in Hin.
    assert (Hf : In (Imwrite path img) (filter is_imwrite t)).
    { apply filter_In. split; [exact Hin | reflexivity]. }
    rewrite Hw in Hf. destruct Hf.
Qed.

End MovieImages.

(** C4.  Whatever the disparity map and the sentinel, the encoded image
    has the width and the height of the disparity map (and as many samples),
    and a pixel whose disparity sample equals the sentinel is encoded as
    exactly 0.  The batch runner writes nothing but such encodings: every
    image it writes is the encoding of the disparity map of a frame with the
    sentinel queried from the engine, and has the width and the height of
    the first left image. *)
Theorem encoder_masks_invalid_samples :
  (forall (disparity : cv.Mat) (invalid_disp : Z),
      cv.cols (encode_disparity disparity invalid_disp) = cv.cols disparity
      /\ cv.rows (encode_disparity disparity invalid_disp) = cv.rows disparity
      /\ List.length (cv.data (encode_disparity disparity invalid_disp))
         = List.length (cv.data disparity)
      /\ forall y x,
           cv.at_ disparity y x = Some invalid_disp ->
           cv.at_ (encode_disparity disparity invalid_disp) y x = Some 0)
  /\ (forall (w : World) (args : arguments) (path : string) (img : cv.Mat),
         In (Imwrite path img) (stereosgm_movie.trace w args) ->
         exists n,
           path = stereosgm_movie.full_path args n
           /\ img = encode_disparity (disparity_of w args n)
                                     (get_invalid_disparity w (engine w args))
           /\ cv.cols img
              = cv.cols (imread w (image_format_L args) (start_number args))
           /\ cv.rows img
              = cv.rows (imread w (image_format_L args) (start_number args))).
Proof.
  split.
  - intros disparity invalid_disp.
    split; [reflexivity|]. split; [reflexivity|].
    split; [rewrite encode_data; apply length_map|].
    intros y x Hat. rewrite encode_at, Hat. simpl.
    now rewrite encode_sample_invalid.
  - intros w args path img Hin.
    destruct (movie_written_images w args path img Hin) as (n & Hp & Hi).
    exists n. subst img. repeat split. exact Hp.
Qed.

Lemma encoder_masks_invalid_samples_witness :
  cv.at_ (encode_disparity (cv.mkMat 2 2 cv.CV_16S [3; -1; 700; -5]) (-1)) 0 1
  = Some 0
  /\ exists n,
       "out/disparity_0001.png"%string
       = stereosgm_movie.full_path (example_arguments 0 5) n
       /\ cv.mkMat 2 2 cv.CV_16U [300; 0; 65535; 0]
          = encode_disparity
              (disparity_of example_world (example_arguments 0 5) n)
              (get_invalid_disparity
                 example_world (engine example_world (example_arguments 0 5)))
       /\ 2 = cv.cols (imread example_world "left_%d.png" 0)
       /\ 2 = cv.rows (imread example_world "left_%d.png" 0).
Proof.
  destruct encoder_masks_invalid_samples as [Hfun Hrun].
  split.
  - apply (Hfun (cv.mkMat 2 2 cv.CV_16S [3; -1; 700; -5]) (-1)).
    reflexivity.
  - apply (Hrun example_world (example_arguments 0 5)
                "out/disparity_0001.png"%string
                (cv.mkMat 2 2 cv.CV_16U [300; 0; 65535; 0])).
    vm_compute. repeat (first [left; reflexivity | right]).
Defined.

(** ** The benchmark runner *)

Section TestTime.

Variable w : World.
Variable args : arguments.

Lemma runs_closed (fuel : nat) :
  forall (i : Z) (total_duration_us : Q) (s : state),
    0 <= i <= 70 ->
    (Z.to_nat (70 - i) < fuel)%nat ->
    exists s',
      stereosgm_test_time.runs w fuel (engine w args) i total_duration_us s
      = (Normal (runs_total w fuel i (clock_reads s) total_duration_us),
         runs_trace w fuel i (clock_reads s), s').
Proof.
  induction fuel as [|fuel IH]; intros i tot s Hi Hfuel; [lia|].
  simpl.
  change (int_add stereosgm_test_time.WARMUP_RUNS
                  stereosgm_test_time.MEASUREMENT_RUNS) with 70.
  change stereosgm_test_time.WARMUP_RUNS with 20.
  destruct (i <? 70) eqn:C.
  - apply Z.ltb_lt in C.
    assert (E : int_add i 1 = i + 1).
    { apply wrap_int_small. unfold is_int, INT_MIN, INT_MAX. lia. }
    rewrite E.
    unfold bind, now, sgm_execute, cudaDeviceSynchronize, emit. simpl.
    match goal with
    | |- context [stereosgm_test_time.runs w fuel _ (i + 1) ?t ?s1] =>
        destruct (IH (i + 1) t s1) as (s' & R); [lia | lia |];
        rewrite R
    end.
    exists s'. reflexivity.
  - exists s. reflexivity.
Qed.

Lemma sum_Q_cons (d : Z) (l : list Z) :
  sum_Q (d :: l) = (inject_Z d + sum_Q l)%Q.
Proof. reflexivity. Qed.

Lemma sum_Q_shift (f : nat -> Z) (m : nat) :
  forall (c : nat) (total_duration_us : Q),
    (total_duration_us + inject_Z (f c)
     + sum_Q (map (fun k => f (S (S c) + 2 * k)%nat) (seq 0 m))
     == total_duration_us
        + sum_Q (map (fun k => f (c + 2 * k)%nat) (seq 0 (S m))))%Q.
Proof.
  intros c tot.
  assert (E : map (fun k => f (c + 2 * k)%nat) (seq 0 (S m))
              = f c :: map (fun k => f (S (S c) + 2 * k)%nat) (seq 0 m)).
  { change (seq 0 (S m)) with (0%nat :: seq 1 m).
    rewrite map_cons. f_equal; [f_equal; lia|].
    rewrite <- seq_shift, map_map.
    apply map_ext. intros k. f_equal. lia. }
  rewrite E, sum_Q_cons. ring.
Qed.

(** Past the warm-up, every iteration left adds its duration. *)
Lemma runs_total_measured (fuel : nat) :
  forall (m : nat) (i : Z) (c : nat) (total_duration_us : Q),
    20 <= i ->
    i + Z.of_nat m = 70 ->
    (m < fuel)%nat ->
    (runs_total w fuel i c total_duration_us
     == total_duration_us
        + sum_Q (map (fun k => elapsed w (c + 2 * k)) (seq 0 m)))%Q.
Proof.
  induction fuel as [|fuel IH]; intros m i c tot Hi Hm Hfuel; [lia|].
  simpl runs_total.
  destruct m as [|m].
  - assert (C : (i <? 70) = false) by (apply Z.ltb_ge; lia).
    rewrite C. simpl. ring.
  - assert (C : (i <? 70) = true) by (apply Z.ltb_lt; lia).
    assert (C' : (20 <=? i) = true) by (apply Z.leb_le; lia).
    rewrite C, C'.
    rewrite (IH m) by lia.
    apply sum_Q_shift.
Qed.

(** The warm-up iterations leave the total as it is. *)
Lemma runs_total_warmup (fuel m : nat) :
  forall (i : Z) (c : nat) (total_duration_us : Q),
    0 <= i ->
    i + Z.of_nat m = 20 ->
    runs_total w (m + fuel) i c total_duration_us
    = runs_total w fuel 20 (c + 2 * m) total_duration_us.
Proof.
  induction m as [|m IH]; intros i c tot Hi Hm.
  - replace i with 20 by lia. now rewrite Nat.add_0_r.
  - change (S m + fuel)%nat with (S (m + fuel)).
    cbn [runs_total].
    assert (C : (i <? 70) = true) by (apply Z.ltb_lt; lia).
    assert (C' : (20 <=? i) = false) by (apply Z.leb_gt; lia).
    rewrite C, C', IH by lia.
    f_equal. lia.
Qed.

Lemma map_seq_from {A} (f : nat -> A) (n : nat) :
  forall a, map f (seq a n) = map (fun k => f (a + k)%nat) (seq 0 n).
Proof.
  induction n as [|n IH]; intros a; [reflexivity|].
  cbn [seq map]. f_equal; [f_equal; lia|].
  rewrite (IH (S a)), <- (seq_shift n 0), map_map.
  apply map_ext. intros k. f_equal. lia.
Qed.

(** The total the loop ends with is the sum of the measured durations. *)
Lemma runs_total_all (fuel : nat) :
  (70 < fuel)%nat ->
  (runs_total w fuel 0 0 0 == sum_Q (measured_durations w))%Q.
Proof.
  intros Hfuel.
  replace fuel with (20 + (fuel - 20))%nat by lia.
  rewrite (runs_total_warmup (fuel - 20) 20 0 0 0) by lia.
  rewrite (runs_total_measured (fuel - 20) 50) by lia.
  unfold measured_durations, duration_of_run.
  rewrite (map_seq_from (fun i => elapsed w (2 * i)) 50 20).
  rewrite (map_ext (fun k => elapsed w (0 + 2 * 20 + 2 * k))
                   (fun k => elapsed w (2 * (20 + k)))).
  - ring.
  - intros k. f_equal. lia.
Qed.

(** The trace of the loop: 70 timed calls. *)
Lemma runs_trace_all (fuel : nat) :
  forall (m : nat) (i : Z) (c : nat),
    i + Z.of_nat m = 70 ->
    (m < fuel)%nat ->
    runs_trace w fuel i c
    = List.concat (map (fun k => timed_call w (c + 2 * k)) (seq 0 m)).
Proof.
  induction fuel as [|fuel IH]; intros m i c Hm Hfuel; [lia|].
  cbn [runs_trace].
  destruct m as [|m].
  - assert (C : (i <? 70) = false) by (apply Z.ltb_ge; lia).
    now rewrite C.
  - assert (C : (i <? 70) = true) by (apply Z.ltb_lt; lia).
    rewrite C, (IH m) by lia.
    change (seq 0 (S m)) with (0%nat :: seq 1 m).
    rewrite map_cons, List.concat_cons, Nat.mul_0_r, Nat.add_0_r.
    f_equal. f_equal.
    rewrite <- (seq_shift m 0), map_map.
    apply map_ext. intros k. f_equal. lia.
Qed.

Lemma test_time_run_help :
  help args = true ->
  run (stereosgm_test_time.main w args) (fun r => r)
  = (Some 0, [PrintMessage]).
Proof.
  intros H. unfold run, stereosgm_test_time.main, stereosgm_test_time.main_on.
  now rewrite H.
Qed.

Lemma test_time_run_check :
  help args = false -> check args = false ->
  run (stereosgm_test_time.main w args) (fun r => r)
  = (Some EXIT_FAILURE, [PrintErrors; PrintMessage]).
Proof.
  intros H C. unfold run, stereosgm_test_time.main, stereosgm_test_time.main_on.
  now rewrite H, C.
Qed.

Lemma test_time_pipeline_invalid (fuel : nat) :
  passes_validation w args = false ->
  exists msgs,
    stereosgm_test_time.pipeline w args fuel initial_state
    = (Exit EXIT_FAILURE,
       [Imread (image_format_L args) (start_number args);
        Imread (image_format_R args) (start_number args)]
       ++ map Cerr msgs,
       initial_state).
Proof.
  unfold passes_validation, readable, compatible, supported_disp_size.
  intros V.
  unfold stereosgm_test_time.pipeline, bind, do_imread, emit, ret, ASSERT_MSG,
    exit. simpl.
  destruct (negb (cv.empty (imread w (image_format_L args) (start_number args)))
            && negb (cv.empty (imread w (image_format_R args) (start_number args))));
    simpl in *; [|eexists [_]; reflexivity].
  destruct (cv.size_eq _ _ && (_ =? _)); simpl in *;
    [|eexists [_]; reflexivity].
  destruct (_ =? cv.CV_8U); destruct (_ =? cv.CV_16U); simpl in *;
    try (rewrite V; simpl);
    first [eexists [_]; reflexivity | eexists [_; _; _; _]; reflexivity].
Qed.

Lemma test_time_run_invalid :
  past_command_line args = true ->
  passes_validation w args = false ->
  exists msgs,
    run (stereosgm_test_time.main w args) (fun r => r)
    = (Some EXIT_FAILURE,
       [Imread (image_format_L args) (start_number args);
        Imread (image_format_R args) (start_number args)]
       ++ map Cerr msgs).
Proof.
  intros P V. apply andb_true_iff in P as [H C].
  apply negb_true_iff in H.
  destruct (test_time_pipeline_invalid
              (S (Z.to_nat (stereosgm_test_time.WARMUP_RUNS
                            + stereosgm_test_time.MEASUREMENT_RUNS))) V)
    as (msgs & E).
  exists msgs.
  unfold run, stereosgm_test_time.main, stereosgm_test_time.main_on.
  rewrite H, C. change (negb true) with false. cbv iota.
  now rewrite E.
Qed.

Lemma test_time_pipeline_valid (fuel : nat) :
  passes_validation w args = true ->
  (70 < fuel)%nat ->
  exists s',
    stereosgm_test_time.pipeline w args fuel initial_state
    = (Normal 0,
       startup_trace w args
       ++ [Upload d_I1 (cv.data (left_image w args (start_number args)));
           Upload d_I2 (cv.data (right_image w args (start_number args)));
           CoutStarting 20 50]
       ++ runs_trace w fuel 0 0
       ++ [CoutAverage 50 2 (runs_total w fuel 0 0 0 / inject_Z 50 / 1000)],
       s').
Proof.
  unfold passes_validation, readable, compatible, supported_disp_size.
  intros V Hfuel.
  apply andb_true_iff in V as [V V3].
  apply andb_true_iff in V as [V1 V2].
  apply andb_true_iff in V2 as [V2 V2'].
  destruct (runs_closed fuel 0 0
              (mkState 0 (cv.data (left_image w args (start_number args)))
                       (cv.data (right_image w args (start_number args))) []))
    as (s' & R); [lia | lia |].
  exists s'.
  unfold stereosgm_test_time.pipeline, bind, do_imread, emit, ret,
    ASSERT_MSG, exit, new_StereoSGM, new_device_buffer, upload. simpl.
  rewrite V1, V2, V3. simpl.
  assert (T : negb (cv.type (imread w (image_format_L args) (start_number args))
                    =? cv.CV_8U)
              && negb (cv.type (imread w (image_format_L args)
                                       (start_number args)) =? cv.CV_16U)
              = false).
  { rewrite <- negb_orb. now rewrite V2'. }
  rewrite T. simpl.
  change (mkStereoSGM _ _ _ _ _) with (engine w args).
  unfold left_image, right_image in R.
  rewrite R. cbn [clock_reads].
  unfold startup_trace. cbn [app]. rewrite ?app_nil_r. reflexivity.
Qed.

Lemma test_time_run_valid :
  past_command_line args = true ->
  passes_validation w args = true ->
  exists average_time_ms,
    run (stereosgm_test_time.main w args) (fun r => r)
    = (Some 0,
       startup_trace w args
       ++ [Upload d_I1 (cv.data (left_image w args (start_number args)));
           Upload d_I2 (cv.data (right_image w args (start_number args)));
           CoutStarting 20 50]
       ++ List.concat (map (fun i => timed_call w (2 * i)) (seq 0 70))
       ++ [CoutAverage 50 2 average_time_ms])
    /\ (average_time_ms == mean_ms (measured_durations w))%Q.
Proof.
  intros P V. apply andb_true_iff in P as [H C].
  apply negb_true_iff in H.
  destruct (test_time_pipeline_valid 71 V) as (s' & E); [lia|].
  exists (runs_total w 71 0 0 0 / inject_Z 50 / 1000)%Q.
  split.
  - unfold run, stereosgm_test_time.main, stereosgm_test_time.main_on.
    rewrite H, C. change (negb true) with false. cbv iota.
    change (Z.to_nat (stereosgm_test_time.WARMUP_RUNS
                      + stereosgm_test_time.MEASUREMENT_RUNS))
      with 70%nat.
    rewrite E.
    rewrite (runs_trace_all 71 70 0 0) by lia.
    reflexivity.
  - unfold mean_ms.
    rewrite (runs_total_all 71) by lia.
    unfold measured_durations. rewrite length_map, length_seq.
    reflexivity.
Qed.

Lemma test_time_no_loop :
  past_command_line args && passes_validation w args = false ->
  exists status t,
    run (stereosgm_test_time.main w args) (fun r => r) = (Some status, t)
    /\ filter is_alloc t = []
    /\ filter is_sgm_create t = []
    /\ filter is_execute t = []
    /\ (help args = false -> status = EXIT_FAILURE).
Proof.
  intros H.
  destruct (help args) eqn:Hh.
  { rewrite (test_time_run_help Hh). do 2 eexists.
    repeat split; try reflexivity. discriminate. }
  destruct (check args) eqn:Hc.
  2:{ rewrite (test_time_run_check Hh Hc). do 2 eexists.
      repeat split; reflexivity. }
  assert (P : past_command_line args = true).
  { unfold past_command_line. now rewrite Hh, Hc. }
  rewrite P in H. simpl in H.
  destruct (test_time_run_invalid P H) as (msgs & E).
  rewrite E. do 2 eexists.
  split; [reflexivity|].
  assert (F : forall f l, (forall m, f (Cerr m) = false) ->
                          filter f (map Cerr l) = []).
  { intros f l Hf. induction l as [|m l IH]; simpl; [reflexivity|].
    now rewrite Hf. }
  simpl. rewrite !F by reflexivity.
  repeat split; reflexivity.
Qed.

End TestTime.

(** C5.  A run of the benchmark runner that passes its initial checks
    makes exactly 70 matching calls, each between two consecutive readings
    of the clock: iteration [i] reads the clock for the [2 i]-th and the
    [2 i + 1]-th time.  The average it prints, with [std::fixed] and a
    precision of 2, is the sum of the durations of iterations 20 to 69, the
    50 measured ones and no other, divided by 50 and then by 1000 to give
    milliseconds.  ([double]s are taken as exact rationals.) *)
Theorem benchmark_runs_and_mean (w : World) (args : arguments) :
  past_command_line args = true ->
  passes_validation w args = true ->
  exists average_time_ms,
    stereosgm_test_time.status w args = Some 0
    /\ stereosgm_test_time.trace w args
       = startup_trace w args
         ++ [Upload d_I1 (cv.data (imread w (image_format_L args)
                                          (start_number args)));
             Upload d_I2 (cv.data (imread w (image_format_R args)
                                          (start_number args)));
             CoutStarting 20 50]
         ++ List.concat (map (fun i => [Now (clock w (2 * i)); Execute;
                                   DeviceSynchronize;
                                   Now (clock w (S (2 * i)))])
                        (seq 0 70))
         ++ [CoutAverage 50 2 average_time_ms]
    /\ List.length (filter is_execute (stereosgm_test_time.trace w args))
       = 70%nat
    /\ measured_durations w
       = map (fun i => microseconds w (clock w (S (2 * i)) - clock w (2 * i)))
             (seq 20 50)
    /\ (average_time_ms == sum_Q (measured_durations w) / 50 / 1000)%Q
    /\ (average_time_ms == mean_ms (measured_durations w))%Q.
Proof.
  intros P V.
  destruct (test_time_run_valid w args P V) as (avg & R & Havg).
  exists avg.
  unfold stereosgm_test_time.status, stereosgm_test_time.trace.
  rewrite R. cbn [fst snd].
  split; [reflexivity|]. split; [reflexivity|]. split; [reflexivity|].
  split; [reflexivity|]. split; [|exact Havg].
  rewrite Havg. unfold mean_ms, measured_durations.
  rewrite length_map, length_seq. reflexivity.
Qed.

Lemma benchmark_runs_and_mean_witness :
  exists average_time_ms,
    stereosgm_test_time.status example_world (example_arguments 0 0) = Some 0
    /\ stereosgm_test_time.trace example_world (example_arguments 0 0)
       = startup_trace example_world (example_arguments 0 0)
         ++ [Upload d_I1 [10; 20; 30; 40];
             Upload d_I2 [10; 20; 30; 40];
             CoutStarting 20 50]
         ++ List.concat (map (fun i => [Now (clock example_world (2 * i)); Execute;
                                   DeviceSynchronize;
                                   Now (clock example_world (S (2 * i)))])
                        (seq 0 70))
         ++ [CoutAverage 50 2 average_time_ms]
    /\ List.length
         (filter is_execute
                 (stereosgm_test_time.trace example_world (example_arguments 0 0)))
       = 70%nat
    /\ measured_durations example_world
       = map (fun i => microseconds example_world
                         (clock example_world (S (2 * i))
                          - clock example_world (2 * i)))
             (seq 20 50)
    /\ (average_time_ms
        == sum_Q (measured_durations example_world) / 50 / 1000)%Q
    /\ (average_time_ms == mean_ms (measured_durations example_world))%Q.
Proof.
  apply (benchmark_runs_and_mean example_world (example_arguments 0 0)).
  - reflexivity.
  - reflexivity.
Defined.


(** With an unsupported [disp_size] neither runner allocates. *)
Lemma unsupported_disp_size_no_allocation (w : World) (args : arguments) :
  supported_disp_size (disp_size args) = false ->
  filter is_alloc (stereosgm_movie.trace w args) = []
  /\ filter is_alloc (stereosgm_test_time.trace w args) = [].
Proof.
  intros D.
  assert (E : past_command_line args && passes_validation w args = false).
  { unfold passes_validation. rewrite D.
    now rewrite !andb_false_r. }
  destruct (movie_no_loop w args E) as (s1 & t1 & R1 & _ & _ & A1 & _).
  destruct (test_time_no_loop w args E) as (s2 & t2 & R2 & A2 & _).
  unfold stereosgm_movie.trace, stereosgm_test_time.trace.
  rewrite R1, R2. split; assumption.
Qed.

(** C6.  In both runners a [disp_size] other than 64, 128 and 256 is
    never followed by the creation of the engine or the allocation of a
    device buffer, and the run ends with a failure status (unless it was
    only asked to print the help, which it does before it looks at
    anything).  So no allocation comes before the check of [disp_size]: a
    trace with an allocation is the trace of a run whose [disp_size] passed
    the check. *)
Theorem disp_size_checked_before_allocation (w : World) (args : arguments) :
  supported_disp_size (disp_size args) = false ->
  filter is_alloc (stereosgm_movie.trace w args) = []
  /\ filter is_sgm_create (stereosgm_movie.trace w args) = []
  /\ filter is_alloc (stereosgm_test_time.trace w args) = []
  /\ filter is_sgm_create (stereosgm_test_time.trace w args) = []
  /\ stereosgm_movie.status w args
     = Some (if help args then 0 else EXIT_FAILURE)
  /\ stereosgm_test_time.status w args
     = Some (if help args then 0 else EXIT_FAILURE).
Proof.
  intros D.
  assert (E : past_command_line args && passes_validation w args = false).
  { unfold passes_validation. rewrite D.
    now rewrite !andb_false_r. }
  destruct (movie_no_loop w args E) as (s1 & t1 & R1 & _ & _ & A1 & G1 & _ & F1).
  destruct (test_time_no_loop w args E) as (s2 & t2 & R2 & A2 & G2 & _ & F2).
  unfold stereosgm_movie.status, stereosgm_movie.trace,
    stereosgm_test_time.status, stereosgm_test_time.trace.
  rewrite R1, R2. cbn [fst snd].
  repeat (split; [assumption|]).
  destruct (help args) eqn:H.
  - rewrite (movie_run_help w args H) in R1.
    rewrite (test_time_run_help w args H) in R2.
    injection R1 as <- _. injection R2 as <- _. split; reflexivity.
  - now rewrite (F1 eq_refl), (F2 eq_refl).
Qed.

(** The other way round: an allocation in a trace tells that [disp_size]
    passed the check. *)
Lemma allocation_follows_disp_size_check (w : World) (args : arguments) :
  filter is_alloc (stereosgm_movie.trace w args) <> []
  \/ filter is_alloc (stereosgm_test_time.trace w args) <> [] ->
  supported_disp_size (disp_size args) = true.
Proof.
  intros H.
  destruct (supported_disp_size (disp_size args)) eqn:D; [reflexivity|].
  destruct (unsupported_disp_size_no_allocation w args D) as [A1 A2].
  destruct H as [H | H]; contradiction.
Qed.

Lemma disp_size_checked_before_allocation_witness :
  filter is_alloc
         (stereosgm_movie.trace example_world
            (mkArguments false true "left_%d.png" "right_%d.png" "out" 100 0 5))
  = []
  /\ filter is_sgm_create
            (stereosgm_movie.trace example_world
               (mkArguments false true "left_%d.png" "right_%d.png" "out" 100 0 5))
     = []
  /\ filter is_alloc
            (stereosgm_test_time.trace example_world
               (mkArguments false true "left_%d.png" "right_%d.png" "out" 100 0 5))
     = []
  /\ filter is_sgm_create
            (stereosgm_test_time.trace example_world
               (mkArguments false true "left_%d.png" "right_%d.png" "out" 100 0 5))
     = []
  /\ stereosgm_movie.status example_world
       (mkArguments false true "left_%d.png" "right_%d.png" "out" 100 0 5)
     = Some EXIT_FAILURE
  /\ stereosgm_test_time.status example_world
       (mkArguments false true "left_%d.png" "right_%d.png" "out" 100 0 5)
     = Some EXIT_FAILURE.
Proof.
  apply (disp_size_checked_before_allocation example_world
           (mkArguments false true "left_%d.png" "right_%d.png" "out" 100 0 5)).
  reflexivity.
Defined.


(** * Further properties *)

(** ** The disparity encoder *)

Section EncoderMore.

Lemma encode_sample_range (invalid_disp d : Z) :
  0 <= encode_sample invalid_disp d <= USHRT_MAX.
Proof.
  unfold encode_sample.
  destruct ((if d =? invalid_disp then 255 else 0) =? 0);
    [|unfold USHRT_MAX; lia].
  rewrite saturate_cast_ushort_clamp. unfold clamp_ushort, USHRT_MAX. lia.
Qed.

Lemma encode_sample_clamp (invalid_disp d : Z) :
  invalid_disp <= 0 ->
  encode_sample invalid_disp d = clamp_ushort (d * 100).
Proof.
  intros Hinv.
  destruct (Z.eq_dec d invalid_disp) as [-> | Hd].
  - rewrite encode_sample_invalid. unfold clamp_ushort, USHRT_MAX. lia.
  - now apply encode_sample_valid.
Qed.

End EncoderMore.

(** X1.  Whatever the disparity map and the sentinel, the encoded image is
    of type [CV_16U] and every one of its samples lies between 0 and
    65535. *)
Theorem encoder_output_is_ushort (disparity : cv.Mat) (invalid_disp : Z) :
  cv.type (encode_disparity disparity invalid_disp) = cv.CV_16U
  /\ Forall (fun e => 0 <= e <= USHRT_MAX)
            (cv.data (encode_disparity disparity invalid_disp)).
Proof.
  split; [reflexivity|].
  rewrite encode_data. apply Forall_map, Forall_forall.
  intros d _. apply encode_sample_range.
Qed.

(** X2.  The encoding keeps the order of disparities: of two samples other
    than the sentinel, the larger one is never encoded as the smaller
    value. *)
Theorem encoder_is_monotone
  (disparity : cv.Mat) (invalid_disp y1 x1 y2 x2 d1 d2 : Z) :
  cv.at_ disparity y1 x1 = Some d1 ->
  cv.at_ disparity y2 x2 = Some d2 ->
  d1 <> invalid_disp ->
  d2 <> invalid_disp ->
  d1 <= d2 ->
  exists e1 e2,
    cv.at_ (encode_disparity disparity invalid_disp) y1 x1 = Some e1
    /\ cv.at_ (encode_disparity disparity invalid_disp) y2 x2 = Some e2
    /\ e1 <= e2.
Proof.
  intros H1 H2 N1 N2 Hle.
  exists (encode_sample invalid_disp d1), (encode_sample invalid_disp d2).
  rewrite !encode_at, H1, H2.
  split; [reflexivity|]. split; [reflexivity|].
  rewrite !encode_sample_valid by assumption.
  unfold clamp_ushort, USHRT_MAX. lia.
Qed.

Lemma encoder_is_monotone_witness :
  exists e1 e2,
    cv.at_ (encode_disparity (cv.mkMat 2 2 cv.CV_16S [3; -1; 700; -5]) (-1)) 0 0
    = Some e1
    /\ cv.at_ (encode_disparity (cv.mkMat 2 2 cv.CV_16S [3; -1; 700; -5]) (-1))
              1 0
       = Some e2
    /\ e1 <= e2.
Proof.
  apply (encoder_is_monotone
           (cv.mkMat 2 2 cv.CV_16S [3; -1; 700; -5]) (-1) 0 0 1 0 3 700);
    try reflexivity; lia.
Defined.

(** X3.  The encoding loses nothing exactly on the disparities 0 to 655:
    for a sample [d] other than the sentinel the encoded value is [d * 100],
    from which [d] is read back by a division by 100, if and only if
    [0 <= d <= 655]; from 656 on every sample is encoded as 65535. *)
Theorem encoder_exact_range
  (disparity : cv.Mat) (invalid_disp y x d : Z) :
  cv.at_ disparity y x = Some d ->
  d <> invalid_disp ->
  exists e,
    cv.at_ (encode_disparity disparity invalid_disp) y x = Some e
    /\ (e = d * 100 <-> 0 <= d <= 655)
    /\ (0 <= d <= 655 -> e / 100 = d /\ e mod 100 = 0)
    /\ (656 <= d -> e = USHRT_MAX).
Proof.
  intros Hat Hd.
  exists (encode_sample invalid_disp d).
  rewrite encode_at, Hat. split; [reflexivity|].
  rewrite (encode_sample_valid _ _ Hd).
  unfold clamp_ushort, USHRT_MAX.
  split; [lia|]. split; [|lia].
  intros Hr.
  replace (Z.max 0 (Z.min 65535 (d * 100))) with (d * 100) by lia.
  split; [apply Z.div_mul; lia | apply Z.mod_mul; lia].
Qed.

Lemma encoder_exact_range_witness :
  exists e,
    cv.at_ (encode_disparity (cv.mkMat 2 2 cv.CV_16S [3; -1; 700; -5]) (-1)) 0 0
    = Some e
    /\ (e = 3 * 100 <-> 0 <= 3 <= 655)
    /\ (0 <= 3 <= 655 -> e / 100 = 3 /\ e mod 100 = 0)
    /\ (656 <= 3 -> e = USHRT_MAX).
Proof.
  apply (encoder_exact_range
           (cv.mkMat 2 2 cv.CV_16S [3; -1; 700; -5]) (-1) 0 0 3).
  - reflexivity.
  - lia.
Defined.

(** X4.  An encoded 0 says little: a pixel is encoded as 0 if and only if
    its disparity is the sentinel, or zero, or negative. *)
Theorem encoder_zero_iff
  (disparity : cv.Mat) (invalid_disp y x d : Z) :
  cv.at_ disparity y x = Some d ->
  (cv.at_ (encode_disparity disparity invalid_disp) y x = Some 0
   <-> d = invalid_disp \/ d <= 0).
Proof.
  intros Hat. rewrite encode_at, Hat. simpl.
  destruct (Z.eq_dec d invalid_disp) as [-> | Hd].
  - rewrite encode_sample_invalid. split; [now left | reflexivity].
  - rewrite (encode_sample_valid _ _ Hd).
    unfold clamp_ushort, USHRT_MAX. split.
    + intros H. injection H as H. right. lia.
    + intros [H | H]; [contradiction | f_equal; lia].
Qed.

Lemma encoder_zero_iff_witness :
  cv.at_ (encode_disparity (cv.mkMat 2 2 cv.CV_16S [3; -1; 700; -5]) (-1)) 1 1
  = Some 0
  <-> -5 = -1 \/ -5 <= 0.
Proof.
  apply (encoder_zero_iff (cv.mkMat 2 2 cv.CV_16S [3; -1; 700; -5]) (-1) 1 1).
  reflexivity.
Defined.

(** X5.  With a sentinel that is zero or negative the
    masking step changes nothing: the conversion alone already gives the
    encoded image, because it saturates the sentinel to 0. *)
Theorem encoder_mask_redundant (disparity : cv.Mat) (invalid_disp : Z) :
  invalid_disp <= 0 ->
  encode_disparity disparity invalid_disp = cv.convertTo_16U disparity 100.
Proof.
  intros Hinv.
  assert (E : cv.data (encode_disparity disparity invalid_disp)
              = cv.data (cv.convertTo_16U disparity 100)).
  { rewrite encode_data. simpl. apply map_ext. intros d.
    rewrite (encode_sample_clamp _ _ Hinv).
    now rewrite cvRound_scaled, saturate_cast_ushort_clamp. }
  unfold encode_disparity, cv.setTo in *. simpl in *.
  unfold cv.convertTo_16U. f_equal. exact E.
Qed.

Lemma encoder_mask_redundant_witness :
  encode_disparity (cv.mkMat 2 2 cv.CV_16S [3; -1; 700; -5]) (-1)
  = cv.convertTo_16U (cv.mkMat 2 2 cv.CV_16S [3; -1; 700; -5]) 100.
Proof.
  apply (encoder_mask_redundant (cv.mkMat 2 2 cv.CV_16S [3; -1; 700; -5]) (-1)).
  lia.
Defined.


(** ** File names *)

Section Names.

Lemma length_append (a b : string) :
  String.length (a ++ b) = (String.length a + String.length b)%nat.
Proof. induction a as [|x a IH]; simpl; [reflexivity | now rewrite IH]. Qed.

Lemma append_cancel_l (a b c : string) :
  (a ++ b = a ++ c)%string -> b = c.
Proof.
  induction a as [|x a IH]; simpl; intros H; [exact H|].
  injection H as H. now apply IH.
Qed.

Lemma append_cancel_r (c : string) :
  forall a b : string, (a ++ c = b ++ c)%string -> a = b.
Proof.
  induction a as [|x a IH]; destruct b as [|y b]; simpl; intros H.
  - reflexivity.
  - apply (f_equal String.length) in H. simpl in H.
    rewrite length_append in H. lia.
  - apply (f_equal String.length) in H. simpl in H.
    rewrite length_append in H. lia.
  - injection H as -> H. f_equal. now apply IH.
Qed.

Lemma drop_fill_fill_left (k : nat) (fill : ascii) (s : string) :
  drop_fill fill (fill_left k fill s) = drop_fill fill s.
Proof.
  induction k as [|k IH]; simpl; [reflexivity|].
  now rewrite Ascii.eqb_refl.
Qed.

(** Dropping the zeros a numeral begins with leaves a numeral of the same
    value. *)
Lemma drop_fill_uint (u : Decimal.uint) :
  exists u',
    drop_fill "0" (NilEmpty.string_of_uint u) = NilEmpty.string_of_uint u'
    /\ Z.of_uint u' = Z.of_uint u.
Proof.
  induction u as [|v IH|v _|v _|v _|v _|v _|v _|v _|v _|v _];
    try (match goal with
         | |- exists u', drop_fill _ (NilEmpty.string_of_uint ?u) = _ /\ _ =>
             exists u; split; reflexivity
         end).
  destruct IH as (u' & E & V). exists u'. simpl. split; assumption.
Qed.

(** The number is read back from its zero-filled numeral, whatever the
    width, also when it is negative. *)
Lemma read_number_setw_setfill (width : nat) (n : Z) :
  read_number (setw_setfill width "0" n) = Some n.
Proof.
  unfold read_number, setw_setfill. rewrite drop_fill_fill_left.
  unfold decimal.
  destruct n as [|p|p].
  - reflexivity.
  - change (NilEmpty.string_of_int (Z.to_int (Z.pos p)))
      with (NilEmpty.string_of_uint (Pos.to_uint p)).
    destruct (drop_fill_uint (Pos.to_uint p)) as (u' & E & V).
    rewrite E.
    change (NilEmpty.string_of_uint u')
      with (NilEmpty.string_of_int (Decimal.Pos u')).
    rewrite NilEmpty.isi. simpl. f_equal.
    rewrite V.
    change (Z.of_uint (Pos.to_uint p)) with (Z.of_int (Z.to_int (Z.pos p))).
    apply DecimalZ.of_to.
  - change (drop_fill "0" (NilEmpty.string_of_int (Z.to_int (Z.neg p))))
      with (NilEmpty.string_of_int (Z.to_int (Z.neg p))).
    rewrite NilEmpty.isi. cbn [option_map]. f_equal.
    apply DecimalZ.of_to.
Qed.

Lemma filename_lengths :
  forallb (fun i => Nat.eqb (String.length
                               (stereosgm_movie.filename (Z.of_nat i))) 18)
          (seq 0 (Z.to_nat 10000)) = true.
Proof. vm_compute. reflexivity. Qed.

Lemma negative_fills :
  forallb (fun i =>
             let n := - Z.of_nat i in
             String.eqb (setw_setfill 4 "0" n)
                        (fill_left (if -9 <=? n then 2 else 1) "0"
                                   (String "-" (decimal (- n)))))
          (seq 1 99) = true.
Proof. vm_compute. reflexivity. Qed.

End Names.

(** X6.  Two frames never share an output file: for one output directory,
    two different frame numbers have different paths, whatever the numbers,
    beyond 9999 and below 0 too. *)
Theorem output_paths_distinct (args : arguments) (n1 n2 : Z) :
  n1 <> n2 ->
  stereosgm_movie.full_path args n1 <> stereosgm_movie.full_path args n2.
Proof.
  unfold stereosgm_movie.full_path, stereosgm_movie.filename. intros Hn H.
  apply append_cancel_l in H.
  apply (append_cancel_l "/") in H.
  apply (append_cancel_l "disparity_") in H.
  apply append_cancel_r in H.
  apply (f_equal read_number) in H.
  rewrite !read_number_setw_setfill in H.
  now injection H.
Qed.

Lemma output_paths_distinct_witness :
  stereosgm_movie.full_path (example_arguments 0 5) 9999
  <> stereosgm_movie.full_path (example_arguments 0 5) 19999.
Proof.
  apply (output_paths_distinct (example_arguments 0 5) 9999 19999).
  lia.
Defined.

(** X7.  For the frame numbers 0 to 9999 the file name is [disparity_],
    four characters and [.png], 18 characters in all, and its four
    characters read back as the frame number. *)
Theorem filename_four_digits (n : Z) :
  0 <= n <= 9999 ->
  String.length (stereosgm_movie.filename n) = 18%nat
  /\ String.length (setw_setfill 4 "0" n) = 4%nat
  /\ read_number (setw_setfill 4 "0" n) = Some n.
Proof.
  intros Hn.
  assert (L : String.length (stereosgm_movie.filename n) = 18%nat).
  { pose proof filename_lengths as F.
    rewrite forallb_forall in F.
    specialize (F (Z.to_nat n)).
    rewrite Z2Nat.id in F by lia.
    apply Nat.eqb_eq, F, in_seq. lia. }
  split; [exact L|]. split; [|apply read_number_setw_setfill].
  unfold stereosgm_movie.filename in L.
  rewrite !length_append in L. simpl in L. lia.
Qed.

Lemma filename_four_digits_witness :
  String.length (stereosgm_movie.filename 42) = 18%nat
  /\ String.length (setw_setfill 4 "0" 42) = 4%nat
  /\ read_number (setw_setfill 4 "0" 42) = Some 42.
Proof. apply (filename_four_digits 42). lia. Defined.

(** X8.  For the frame numbers -99 to -1 the zeros are put in front of the
    minus sign (the stream fills on the left): -1 gives [00-1] and -10
    gives [0-10]. *)
Theorem filename_negative_fill (n : Z) :
  -99 <= n <= -1 ->
  setw_setfill 4 "0" n
  = fill_left (if -9 <=? n then 2 else 1) "0" (String "-" (decimal (- n))).
Proof.
  intros Hn.
  pose proof negative_fills as F.
  rewrite forallb_forall in F.
  specialize (F (Z.to_nat (- n))).
  cbv zeta in F.
  rewrite Z2Nat.id in F by lia.
  rewrite Z.opp_involutive in F.
  apply String.eqb_eq, F, in_seq. lia.
Qed.

Lemma filename_negative_fill_witness :
  setw_setfill 4 "0" (-1) = "00-1"%string.
Proof. apply (filename_negative_fill (-1)). lia. Defined.


(** ** [type2str] *)

Section Type2str.

Lemma make_type_depth (depth cn : Z) :
  0 <= depth <= 7 -> 1 <= cn ->
  Z.land (make_type depth cn) cv.CV_MAT_DEPTH_MASK mod 256 = depth.
Proof.
  intros Hd Hc. unfold make_type, cv.CV_CN_SHIFT, cv.CV_MAT_DEPTH_MASK.
  change 7 with (Z.ones 3).
  rewrite Z.land_ones, Z.shiftl_mul_pow2 by lia.
  change (2 ^ 3) with 8.
  rewrite Z.mod_add by lia.
  rewrite (Z.mod_small depth 8) by lia.
  apply Z.mod_small. lia.
Qed.

Lemma make_type_channels (depth cn : Z) :
  0 <= depth <= 7 -> 1 <= cn ->
  (1 + Z.shiftr (make_type depth cn) cv.CV_CN_SHIFT) mod 256 = cn mod 256.
Proof.
  intros Hd Hc. unfold make_type, cv.CV_CN_SHIFT.
  rewrite Z.shiftr_div_pow2, Z.shiftl_mul_pow2 by lia.
  change (2 ^ 3) with 8.
  rewrite Z.div_add by lia.
  rewrite (Z.div_small depth 8) by lia.
  f_equal. lia.
Qed.

End Type2str.

(** X9.  [type2str] names a type by its depth and its number of channels:
    for the type of [cn] channels, [cn] from 1 to 255, of each depth it
    gives the name of the depth, a [C] and [cn]; the depth code 7, which has
    no name of its own, is called [User]. *)
Theorem type2str_names_depth_and_channels (cn : Z) :
  1 <= cn <= 255 ->
  stereosgm_test_time.type2str (make_type cv.CV_8U cn)
  = ("8UC" ++ decimal cn)%string
  /\ stereosgm_test_time.type2str (make_type cv.CV_8S cn)
     = ("8SC" ++ decimal cn)%string
  /\ stereosgm_test_time.type2str (make_type cv.CV_16U cn)
     = ("16UC" ++ decimal cn)%string
  /\ stereosgm_test_time.type2str (make_type cv.CV_16S cn)
     = ("16SC" ++ decimal cn)%string
  /\ stereosgm_test_time.type2str (make_type cv.CV_32S cn)
     = ("32SC" ++ decimal cn)%string
  /\ stereosgm_test_time.type2str (make_type cv.CV_32F cn)
     = ("32FC" ++ decimal cn)%string
  /\ stereosgm_test_time.type2str (make_type cv.CV_64F cn)
     = ("64FC" ++ decimal cn)%string
  /\ stereosgm_test_time.type2str (make_type 7 cn)
     = ("UserC" ++ decimal cn)%string.
Proof.
  intros Hc.
  unfold stereosgm_test_time.type2str.
  repeat split;
    rewrite make_type_depth, make_type_channels
      by (unfold cv.CV_8U, cv.CV_8S, cv.CV_16U, cv.CV_16S, cv.CV_32S,
            cv.CV_32F, cv.CV_64F; lia);
    rewrite (Z.mod_small cn 256) by lia; reflexivity.
Qed.

Lemma type2str_names_depth_and_channels_witness :
  stereosgm_test_time.type2str 16 = "8UC3"%string
  /\ stereosgm_test_time.type2str (make_type cv.CV_16S 1) = "16SC1"%string.
Proof.
  destruct (type2str_names_depth_and_channels 3) as (H1 & _); [lia|].
  destruct (type2str_names_depth_and_channels 1) as (_ & _ & _ & H4 & _);
    [lia|].
  split; [exact H1 | exact H4].
Defined.

(** X10.  [type2str] keeps the number of channels in an [unsigned char]:
    it prints the number modulo 256, so that the types of [cn] and of
    [cn + 256] channels of a depth get the same name, and 256 channels are
    printed as [C0]. *)
Theorem type2str_channels_wrap (depth cn : Z) :
  0 <= depth <= 7 ->
  1 <= cn ->
  stereosgm_test_time.type2str (make_type depth (cn + 256))
  = stereosgm_test_time.type2str (make_type depth cn)
  /\ exists name,
       stereosgm_test_time.type2str (make_type depth cn)
       = (name ++ "C" ++ decimal (cn mod 256))%string.
Proof.
  intros Hd Hc.
  unfold stereosgm_test_time.type2str.
  rewrite !make_type_depth, !make_type_channels by lia.
  replace ((cn + 256) mod 256) with (cn mod 256).
  - split; [reflexivity|]. eexists. reflexivity.
  - replace (cn + 256) with (cn + 1 * 256) by ring.
    now rewrite Z.mod_add by lia.
Qed.

Lemma type2str_channels_wrap_witness :
  stereosgm_test_time.type2str (make_type cv.CV_8U 257)
  = stereosgm_test_time.type2str (make_type cv.CV_8U 1)
  /\ exists name,
       stereosgm_test_time.type2str (make_type cv.CV_8U 256)
       = (name ++ "C" ++ decimal (256 mod 256))%string.
Proof.
  destruct (type2str_channels_wrap cv.CV_8U 1) as [H _];
    [unfold cv.CV_8U; lia | lia |].
  destruct (type2str_channels_wrap cv.CV_8U 256) as [_ H'];
    [unfold cv.CV_8U; lia | lia |].
  split; [exact H | exact H'].
Defined.


(** ** The batch runner: what a run does in all *)

Section MovieMore.

Variable w : World.
Variable args : arguments.

Lemma count_app (kind : event -> bool) (a b : list event) :
  count kind (a ++ b) = (count kind a + count kind b)%nat.
Proof. unfold count. now rewrite filter_app, length_app. Qed.

Lemma count_zero (kind : event -> bool) (t : list event) :
  count kind t = 0%nat -> filter kind t = [].
Proof. unfold count. apply length_zero_iff_nil. Qed.

(** The four shapes of a run of the batch runner. *)
Lemma movie_run_forms :
  (help args = true
   /\ run (stereosgm_movie.main w args) (fun r => r) = (Some 0, [PrintMessage]))
  \/ (help args = false /\ check args = false
      /\ run (stereosgm_movie.main w args) (fun r => r)
         = (Some EXIT_FAILURE, [PrintErrors; PrintMessage]))
  \/ (past_command_line args = true /\ passes_validation w args = false
      /\ run (stereosgm_movie.main w args) (fun r => r)
         = (Some EXIT_FAILURE,
            [Imread (image_format_L args) (start_number args);
             Imread (image_format_R args) (start_number args);
             Cerr (failure_message w args)]))
  \/ (past_command_line args = true /\ passes_validation w args = true
      /\ stereosgm_movie.trace w args
         = startup_trace w args
           ++ loop_trace w args (S (Z.to_nat (total_number args)))
                         (start_number args) 0).
Proof.
  destruct (help args) eqn:H.
  { left. split; [reflexivity | now apply movie_run_help]. }
  destruct (check args) eqn:C.
  2:{ right. left. split; [reflexivity|]. split; [reflexivity|].
      now apply movie_run_check. }
  assert (P : past_command_line args = true).
  { unfold past_command_line. now rewrite H, C. }
  destruct (passes_validation w args) eqn:V.
  - do 3 right. split; [exact P|]. split; [reflexivity|].
    now apply movie_trace_valid.
  - do 2 right. left. split; [exact P|]. split; [reflexivity|].
    unfold run, stereosgm_movie.main, stereosgm_movie.main_on.
    rewrite H, C. change (negb true) with false. cbv iota.
    now rewrite (movie_pipeline_invalid w args _ V).
Qed.

Lemma frame_trace_counts (n : Z) (c : nat) :
  count is_upload (frame_trace w args n c) = 2%nat
  /\ count is_now (frame_trace w args n c) = 2%nat
  /\ count is_execute (frame_trace w args n c) = 1%nat
  /\ count is_synchronize (frame_trace w args n c) = 1%nat
  /\ count is_download (frame_trace w args n c) = 1%nat
  /\ count is_imwrite (frame_trace w args n c) = 1%nat
  /\ count is_imread (frame_trace w args n c) = 2%nat
  /\ count is_alloc (frame_trace w args n c) = 0%nat
  /\ count is_sgm_create (frame_trace w args n c) = 0%nat
  /\ count is_finished (frame_trace w args n c) = 0%nat.
Proof.
  unfold frame_trace, report, count. simpl.
  destruct (imwrite w _ _); repeat split; reflexivity.
Qed.

Lemma loop_trace_counts (fuel : nat) :
  forall (n : Z) (c : nat),
    let t := loop_trace w args fuel n c in
    let k := List.length (processed_frames t) in
    count is_upload t = (2 * k)%nat
    /\ count is_now t = (2 * k)%nat
    /\ count is_execute t = k
    /\ count is_synchronize t = k
    /\ count is_download t = k
    /\ count is_imwrite t = k
    /\ count is_imread t = (2 * (k + count is_finished t))%nat
    /\ count is_alloc t = 0%nat
    /\ count is_sgm_create t = 0%nat
    /\ (count is_finished t <= 1)%nat.
Proof.
  induction fuel as [|fuel IH]; intros n c; cbv zeta.
  - unfold count. simpl. repeat split; lia.
  - rewrite loop_trace_step.
    destruct (int_sub n (start_number args) <? total_number args);
      [|unfold count; simpl; repeat split; lia].
    destruct (readable w args n); [|unfold count; simpl; repeat split; lia].
    specialize (IH (int_add n 1) (S (S c))). cbv zeta in IH.
    destruct IH as (I1 & I2 & I3 & I4 & I5 & I6 & I7 & I8 & I9 & I10).
    destruct (frame_trace_counts n c)
      as (F1 & F2 & F3 & F4 & F5 & F6 & F7 & F8 & F9 & F10).
    rewrite processed_frames_app, processed_frame_trace, length_app.
    rewrite !count_app.
    rewrite F1, F2, F3, F4, F5, F6, F7, F8, F9, F10.
    rewrite I1, I2, I3, I4, I5, I6, I7, I8, I9.
    simpl List.length.
    repeat split; lia.
Qed.

Lemma frames_events_succ (first : Z) (c m : nat) :
  frames_events w args first c (S m)
  = frame_trace w args first c
    ++ frames_events w args (first + 1) (S (S c)) m.
Proof.
  unfold frames_events.
  change (seq 0 (S m)) with (0%nat :: seq 1 m).
  rewrite map_cons, concat_cons.
  f_equal.
  - f_equal; [change (Z.of_nat 0) with 0; ring | lia].
  - f_equal. rewrite <- (seq_shift m 0), map_map.
    apply map_ext. intros i. f_equal; lia.
Qed.

Lemma processed_frames_events (m : nat) :
  forall (first : Z) (c : nat),
    processed_frames (frames_events w args first c m) = index_range first m.
Proof.
  induction m as [|m IH]; intros first c; [reflexivity|].
  rewrite frames_events_succ, processed_frames_app, processed_frame_trace.
  rewrite IH, index_range_succ. reflexivity.
Qed.



End MovieMore.


Section MovieTotals.

Variable w : World.
Variable args : arguments.

Lemma wrap_int_mul_idem_l (a b : Z) :
  wrap_int (wrap_int a * b) = wrap_int (a * b).
Proof.
  unfold wrap_int.
  f_equal.
  replace (((a + 2 ^ 31) mod 2 ^ 32 - 2 ^ 31) * b + 2 ^ 31)
    with ((a + 2 ^ 31) mod 2 ^ 32 * b + (2 ^ 31 - 2 ^ 31 * b)) by ring.
  rewrite <- Zplus_mod_idemp_l, Zmult_mod_idemp_l, Zplus_mod_idemp_l.
  f_equal. ring.
Qed.

(** The bytes of an image of [depth] bits a sample, [depth] being 8 or
    16, as the runners compute them. *)
Lemma image_bytes (depth cols rows : Z) :
  depth = 8 \/ depth = 16 ->
  0 <= cols -> 0 <= rows ->
  16 * cols * rows <= INT_MAX ->
  int_div (int_mul (int_mul depth cols) rows) 8 = depth / 8 * cols * rows.
Proof.
  intros Hd Hc Hr Hmax.
  unfold int_div, int_mul. rewrite wrap_int_mul_idem_l.
  assert (Hp : 0 <= cols * rows) by nia.
  assert (E : depth * cols * rows = depth / 8 * cols * rows * 8).
  { destruct Hd as [-> | ->].
    - change (8 / 8) with 1. ring.
    - change (16 / 8) with 2. ring. }
  rewrite (wrap_int_small (depth * cols * rows)).
  - rewrite E, Z.quot_mul by lia.
    apply wrap_int_small.
    unfold is_int, INT_MIN, INT_MAX in *.
    destruct Hd as [-> | ->].
    + change (8 / 8) with 1. nia.
    + change (16 / 8) with 2. nia.
  - unfold is_int, INT_MIN, INT_MAX in *.
    destruct Hd as [-> | ->]; nia.
Qed.

End MovieTotals.

(** X11.  In every run of the batch runner, a frame that is processed
    costs two uploads, two readings of the clock, one matching call, one
    device synchronisation, one download and one call of [cv::imwrite], and
    nothing of the kind happens for anything else: with [k] frames processed
    the trace holds [2 k], [2 k], [k], [k], [k] and [k] of them. *)
Theorem batch_frame_accounting (w : World) (args : arguments) :
  let t := stereosgm_movie.trace w args in
  let k := List.length (processed_frames t) in
  count is_upload t = (2 * k)%nat
  /\ count is_now t = (2 * k)%nat
  /\ count is_execute t = k
  /\ count is_synchronize t = k
  /\ count is_download t = k
  /\ count is_imwrite t = k.
Proof.
  cbv zeta.
  destruct (movie_run_forms w args)
    as [[_ R] | [(_ & _ & R) | [(_ & _ & R) | (_ & _ & T)]]].
  1-3: unfold stereosgm_movie.trace; rewrite R; repeat split; reflexivity.
  rewrite T.
  rewrite processed_frames_app, !count_app.
  change (processed_frames (startup_trace w args)) with (@nil Z).
  destruct (loop_trace_counts w args (S (Z.to_nat (total_number args)))
              (start_number args) 0)
    as (I1 & I2 & I3 & I4 & I5 & I6 & _).
  cbn [app]. rewrite I1, I2, I3, I4, I5, I6.
  repeat split; reflexivity.
Qed.

(** X12.  In a run of the batch runner that passes its checks the engine
    is created once and the three device buffers are allocated once, and
    this before the loop: the trace is the two reads of the first pair, the
    creation of the engine and the three allocations, followed by the events
    of the loop, among which there is no creation and no allocation, however
    many frames the loop processes.  A run that does not pass its checks
    creates and allocates nothing, and uploads and matches nothing. *)
Theorem batch_allocates_once (w : World) (args : arguments) :
  filter is_sgm_create (stereosgm_movie.trace w args)
  = (if past_command_line args && passes_validation w args
     then [SgmCreate (engine w args)] else [])
  /\ filter is_alloc (stereosgm_movie.trace w args)
     = (if past_command_line args && passes_validation w args
        then [Alloc d_I1 (src_bytes w args); Alloc d_I2 (src_bytes w args);
              Alloc d_disparity (dst_bytes w args)]
        else [])
  /\ (if past_command_line args && passes_validation w args
      then
        let loop_events :=
          loop_trace w args (S (Z.to_nat (total_number args)))
                     (start_number args) 0 in
        stereosgm_movie.trace w args
        = [Imread (image_format_L args) (start_number args);
           Imread (image_format_R args) (start_number args);
           SgmCreate (engine w args);
           Alloc d_I1 (src_bytes w args); Alloc d_I2 (src_bytes w args);
           Alloc d_disparity (dst_bytes w args)]
          ++ loop_events
        /\ filter is_sgm_create loop_events = []
        /\ filter is_alloc loop_events = []
        /\ processed_frames loop_events
           = processed_frames (stereosgm_movie.trace w args)
        /\ filter is_upload loop_events
           = filter is_upload (stereosgm_movie.trace w args)
        /\ filter is_execute loop_events
           = filter is_execute (stereosgm_movie.trace w args)
      else
        filter is_upload (stereosgm_movie.trace w args) = []
        /\ filter is_execute (stereosgm_movie.trace w args) = []).
Proof.
  destruct (movie_run_forms w args)
    as [[H R] | [(H & C & R) | [(P & V & R) | (P & V & T)]]].
  - unfold stereosgm_movie.trace, past_command_line. rewrite R, H.
    repeat split; reflexivity.
  - unfold stereosgm_movie.trace, past_command_line. rewrite R, H, C.
    repeat split; reflexivity.
  - unfold stereosgm_movie.trace. rewrite R, P, V. repeat split; reflexivity.
  - rewrite T, P, V, !filter_app. cbv zeta.
    destruct (loop_trace_counts w args (S (Z.to_nat (total_number args)))
                (start_number args) 0)
      as (_ & _ & _ & _ & _ & _ & _ & A & G & _).
    rewrite (count_zero _ _ A), (count_zero _ _ G).
    rewrite processed_frames_app.
    repeat split; reflexivity.
Qed.

(** X13.  The sizes of the buffers.  For a first left image of [cols] by
    [rows] samples, with [16 * cols * rows] within the range of [int], each
    source buffer takes one byte a sample for an 8-bit image and two for a
    16-bit one, and the disparity buffer always two bytes a sample, so that
    it is never the smaller one. *)
Theorem buffer_sizes (w : World) (args : arguments) :
  let I1 := imread w (image_format_L args) (start_number args) in
  0 <= cv.cols I1 ->
  0 <= cv.rows I1 ->
  16 * cv.cols I1 * cv.rows I1 <= INT_MAX ->
  src_bytes w args
  = (if cv.type I1 =? cv.CV_8U then 1 else 2) * cv.cols I1 * cv.rows I1
  /\ dst_bytes w args = 2 * cv.cols I1 * cv.rows I1
  /\ src_bytes w args <= dst_bytes w args.
Proof.
  cbv zeta. intros Hc Hr Hmax.
  unfold src_bytes, dst_bytes, engine, left_image. cbn [width height input_depth_bits].
  assert (S : int_div (int_mul (int_mul
                (if cv.type (imread w (image_format_L args) (start_number args))
                    =? cv.CV_8U then 8 else 16)
                (cv.cols (imread w (image_format_L args) (start_number args))))
                (cv.rows (imread w (image_format_L args) (start_number args)))) 8
              = (if cv.type (imread w (image_format_L args) (start_number args))
                    =? cv.CV_8U then 1 else 2)
                * cv.cols (imread w (image_format_L args) (start_number args))
                * cv.rows (imread w (image_format_L args) (start_number args))).
  { destruct (cv.type _ =? cv.CV_8U).
    - rewrite image_bytes by (auto; lia). reflexivity.
    - rewrite image_bytes by (auto; lia). reflexivity. }
  rewrite S, image_bytes by (auto; lia).
  change (16 / 8) with 2.
  split; [reflexivity|]. split; [reflexivity|].
  destruct (cv.type _ =? cv.CV_8U); nia.
Qed.

Lemma buffer_sizes_witness :
  src_bytes example_world (example_arguments 0 5) = 1 * 2 * 2
  /\ dst_bytes example_world (example_arguments 0 5) = 2 * 2 * 2
  /\ src_bytes example_world (example_arguments 0 5)
     <= dst_bytes example_world (example_arguments 0 5).
Proof.
  apply (buffer_sizes example_world (example_arguments 0 5)).
  - simpl. lia.
  - simpl. lia.
  - unfold INT_MAX. simpl. lia.
Defined.





(** X16.  A run of the batch runner that fails a check of the first pair
    or of [disp_size] prints one message, that of the first check that
    fails, and ends with a failure status, having done nothing but read the
    two images.  The checks come in this order: both images read; same size
    and type; type [CV_8U] or [CV_16U]; [disp_size] 64, 128 or 256. *)
Theorem batch_validation_failure (w : World) (args : arguments) :
  past_command_line args = true ->
  passes_validation w args = false ->
  let I1 := imread w (image_format_L args) (start_number args) in
  let I2 := imread w (image_format_R args) (start_number args) in
  exists msg,
    stereosgm_movie.status w args = Some EXIT_FAILURE
    /\ stereosgm_movie.trace w args
       = [Imread (image_format_L args) (start_number args);
          Imread (image_format_R args) (start_number args);
          Cerr msg]
    /\ msg
       = (if cv.empty I1 || cv.empty I2
          then "imread failed. Check start_number and image paths."%string
          else if negb (cv.size_eq I1 I2 && (cv.type I1 =? cv.type I2))
          then "input images must be same size and type."%string
          else if negb ((cv.type I1 =? cv.CV_8U) || (cv.type I1 =? cv.CV_16U))
          then "input image format must be CV_8U or CV_16U."%string
          else "disparity size must be 64, 128 or 256."%string)
    /\ (cv.empty I1 || cv.empty I2 = false ->
        cv.size_eq I1 I2 && (cv.type I1 =? cv.type I2) = true ->
        (cv.type I1 =? cv.CV_8U) || (cv.type I1 =? cv.CV_16U) = true ->
        supported_disp_size (disp_size args) = false).
Proof.
  intros P V. cbv zeta.
  exists (failure_message w args).
  destruct (movie_run_forms w args)
    as [[H _] | [(H & C & _) | [(_ & _ & R) | (_ & V' & _)]]].
  - unfold past_command_line in P. rewrite H in P. discriminate.
  - unfold past_command_line in P. rewrite H, C in P. discriminate.
  - unfold stereosgm_movie.status, stereosgm_movie.trace. rewrite R.
    split; [reflexivity|]. split; [reflexivity|].
    split.
    + unfold failure_message, left_image, right_image.
      now rewrite negb_andb, !negb_involutive.
    + intros E1 E2 E3.
      unfold passes_validation, readable, compatible in V.
      rewrite <- negb_orb, E1, E2, E3 in V. exact V.
  - rewrite V in V'. discriminate.
Qed.

Lemma batch_validation_failure_witness :
  exists msg,
    stereosgm_movie.status mixed_world (example_arguments 1 5)
    = Some EXIT_FAILURE
    /\ stereosgm_movie.trace mixed_world (example_arguments 1 5)
       = [Imread "left_%d.png" 1; Imread "right_%d.png" 1; Cerr msg]
    /\ msg = "input images must be same size and type."%string.
Proof.
  destruct (batch_validation_failure mixed_world (example_arguments 1 5))
    as (msg & S & T & M & _); [reflexivity | reflexivity |].
  exists msg. split; [exact S|]. split; [exact T|]. exact M.
Defined.


(** ** The benchmark runner: errors and the average *)

Section TestTimeMore.

Variable w : World.
Variable args : arguments.

Lemma test_time_pipeline_unsupported (fuel : nat) :
  readable w args (start_number args) = true ->
  cv.size_eq (left_image w args (start_number args))
             (right_image w args (start_number args))
  && (cv.type (left_image w args (start_number args))
      =? cv.type (right_image w args (start_number args))) = true ->
  (cv.type (left_image w args (start_number args)) =? cv.CV_8U)
  || (cv.type (left_image w args (start_number args)) =? cv.CV_16U) = false ->
  stereosgm_test_time.pipeline w args fuel initial_state
  = (Exit EXIT_FAILURE,
     [Imread (image_format_L args) (start_number args);
      Imread (image_format_R args) (start_number args);
      Cerr "Error: Input image format is not supported.";
      Cerr "Required format: CV_8U (8-bit grayscale) or CV_16U (16-bit grayscale).";
      Cerr ("Actual format: "
            ++ stereosgm_test_time.type2str
                 (cv.type (left_image w args (start_number args))));
      Cerr "Hint: If you are using color images, please convert them to grayscale first."],
     initial_state).
Proof.
  unfold readable, left_image, right_image. intros R S T.
  unfold stereosgm_test_time.pipeline, bind, do_imread, emit, ret, ASSERT_MSG,
    exit. simpl.
  rewrite R, S. simpl.
  rewrite <- negb_orb, T. reflexivity.
Qed.

Lemma filter_map_Cerr (kind : event -> bool) (msgs : list string) :
  (forall m, kind (Cerr m) = false) -> filter kind (map Cerr msgs) = [].
Proof.
  intros K. induction msgs as [|m l IH]; simpl; [reflexivity|].
  now rewrite K.
Qed.

Lemma filter_timed_calls (kind : event -> bool) (l : list nat) :
  (forall c, filter kind (timed_call w c) = []) ->
  filter kind (List.concat (map (fun i => timed_call w (2 * i)) l)) = [].
Proof.
  intros K. induction l as [|i l IH]; [reflexivity|].
  rewrite map_cons, concat_cons, filter_app, K, IH. reflexivity.
Qed.



End TestTimeMore.

(** X17.  Given images that are read and of one size and type, but of a
    type other than [CV_8U] and [CV_16U], the benchmark runner, whatever
    [disp_size] is, reads nothing more, prints four lines that name the
    formats it requires and, by [type2str], the format it got, and ends with
    a failure status. *)
Theorem benchmark_unsupported_format (w : World) (args : arguments) :
  past_command_line args = true ->
  let I1 := imread w (image_format_L args) (start_number args) in
  let I2 := imread w (image_format_R args) (start_number args) in
  readable w args (start_number args) = true ->
  cv.size_eq I1 I2 && (cv.type I1 =? cv.type I2) = true ->
  (cv.type I1 =? cv.CV_8U) || (cv.type I1 =? cv.CV_16U) = false ->
  stereosgm_test_time.status w args = Some EXIT_FAILURE
  /\ stereosgm_test_time.trace w args
     = [Imread (image_format_L args) (start_number args);
        Imread (image_format_R args) (start_number args);
        Cerr "Error: Input image format is not supported.";
        Cerr "Required format: CV_8U (8-bit grayscale) or CV_16U (16-bit grayscale).";
        Cerr ("Actual format: " ++ stereosgm_test_time.type2str (cv.type I1));
        Cerr "Hint: If you are using color images, please convert them to grayscale first."].
Proof.
  intros P. cbv zeta. intros R S T.
  apply andb_true_iff in P as [H C]. apply negb_true_iff in H.
  unfold stereosgm_test_time.status, stereosgm_test_time.trace, run,
    stereosgm_test_time.main, stereosgm_test_time.main_on.
  rewrite H, C. change (negb true) with false. cbv iota.
  rewrite (test_time_pipeline_unsupported w args _ R S T).
  split; reflexivity.
Qed.

Lemma benchmark_unsupported_format_witness :
  stereosgm_test_time.status colour_world (example_arguments 0 0)
  = Some EXIT_FAILURE
  /\ stereosgm_test_time.trace colour_world (example_arguments 0 0)
     = [Imread "left_%d.png" 0;
        Imread "right_%d.png" 0;
        Cerr "Error: Input image format is not supported.";
        Cerr "Required format: CV_8U (8-bit grayscale) or CV_16U (16-bit grayscale).";
        Cerr "Actual format: 8UC3";
        Cerr "Hint: If you are using color images, please convert them to grayscale first."].
Proof.
  apply (benchmark_unsupported_format colour_world (example_arguments 0 0));
    reflexivity.
Defined.

(** X18.  The benchmark runner never downloads a result and never writes
    a file, and it reads at most one pair of images: two calls of
    [cv::imread] once it is past the command line, none before. *)
Theorem benchmark_reads_one_pair_writes_nothing
  (w : World) (args : arguments) :
  filter is_download (stereosgm_test_time.trace w args) = []
  /\ filter is_imwrite (stereosgm_test_time.trace w args) = []
  /\ filter is_imread (stereosgm_test_time.trace w args)
     = (if past_command_line args
        then [Imread (image_format_L args) (start_number args);
              Imread (image_format_R args) (start_number args)]
        else []).
Proof.
  unfold stereosgm_test_time.trace.
  destruct (help args) eqn:H.
  { rewrite (test_time_run_help w args H).
    unfold past_command_line. rewrite H. repeat split; reflexivity. }
  destruct (check args) eqn:C.
  2:{ rewrite (test_time_run_check w args H C).
      unfold past_command_line. rewrite H, C. repeat split; reflexivity. }
  assert (P : past_command_line args = true).
  { unfold past_command_line. now rewrite H, C. }
  rewrite P.
  destruct (passes_validation w args) eqn:V.
  - destruct (test_time_run_valid w args P V) as (avg & R & _).
    rewrite R. cbn [snd].
    pose proof (filter_timed_calls w) as F.
    rewrite !filter_app, !F by reflexivity.
    repeat split; reflexivity.
  - destruct (test_time_run_invalid w args P V) as (msgs & R).
    rewrite R. cbn [snd].
    rewrite !filter_app, !filter_map_Cerr by reflexivity.
    repeat split; reflexivity.
Qed.




(** X20.  The timings of the warm-up do not reach the report: two worlds
    that differ only in what the clock shows at its first 40 readings, those
    of the 20 warm-up iterations, make the benchmark runner print the same
    average. *)
Theorem benchmark_ignores_warmup
  (w : World) (args : arguments) (t : nat -> Z) :
  past_command_line args = true ->
  passes_validation w args = true ->
  exists a1 a2,
    In (CoutAverage 50 2 a1) (stereosgm_test_time.trace w args)
    /\ In (CoutAverage 50 2 a2)
          (stereosgm_test_time.trace (with_warmup_clock w t) args)
    /\ (a1 == a2)%Q.
Proof.
  intros P V.
  assert (V' : passes_validation (with_warmup_clock w t) args = true)
    by exact V.
  destruct (test_time_run_valid w args P V) as (a1 & R1 & H1).
  destruct (test_time_run_valid (with_warmup_clock w t) args P V')
    as (a2 & R2 & H2).
  exists a1, a2.
  unfold stereosgm_test_time.trace. rewrite R1, R2. cbn [snd].
  split; [apply in_or_app; right; apply in_or_app; right;
          apply in_or_app; right; now left|].
  split; [apply in_or_app; right; apply in_or_app; right;
          apply in_or_app; right; now left|].
  rewrite H1, H2.
  assert (E : measured_durations (with_warmup_clock w t) = measured_durations w).
  { unfold measured_durations. apply map_ext_in. intros i Hi.
    apply in_seq in Hi.
    unfold duration_of_run, elapsed. simpl.
    assert (C1 : (S (2 * i) <? 40)%nat = false) by (apply Nat.ltb_ge; lia).
    assert (C2 : (2 * i <? 40)%nat = false) by (apply Nat.ltb_ge; lia).
    cbn [Nat.mul Nat.add] in *. rewrite Nat.add_0_r in *.
    now rewrite C1, C2. }
  now rewrite E.
Qed.

Lemma benchmark_ignores_warmup_witness :
  exists a1 a2,
    In (CoutAverage 50 2 a1)
       (stereosgm_test_time.trace example_world (example_arguments 0 0))
    /\ In (CoutAverage 50 2 a2)
          (stereosgm_test_time.trace
             (with_warmup_clock example_world (fun k => 7 * Z.of_nat (k * k)))
             (example_arguments 0 0))
    /\ (a1 == a2)%Q.
Proof.
  apply (benchmark_ignores_warmup example_world (example_arguments 0 0)
           (fun k => 7 * Z.of_nat (k * k)));
    reflexivity.
Defined.


(** ** The batch runner and the answers of [cv::imwrite] *)

Section MovieWrite.

Variable w : World.
Variable args : arguments.
Variable answer : string -> cv.Mat -> write_result.

Lemma frames_with_imwrite (fuel : nat) :
  forall (n : Z) (s : state),
    fst (fst (stereosgm_movie.frames (with_imwrite w answer) args fuel
                (engine w args) (get_invalid_disparity w (engine w args)) n s))
    = fst (fst (stereosgm_movie.frames w args fuel
                  (engine w args) (get_invalid_disparity w (engine w args)) n s)).
Proof.
  induction fuel as [|fuel IH]; intros n s; [reflexivity|].
  simpl.
  destruct (int_sub n (start_number args) <? total_number args);
    [|reflexivity].
  unfold bind.
  destruct (readable w args n) eqn:R.
  - rewrite (frame_readable w args n s R).
    assert (R' : readable (with_imwrite w answer) args n = true) by exact R.
    pose proof (frame_readable (with_imwrite w answer) args n s R') as F.
    change (engine (with_imwrite w answer) args) with (engine w args) in F.
    change (get_invalid_disparity (with_imwrite w answer) (engine w args))
      with (get_invalid_disparity w (engine w args)) in F.
    rewrite F.
    change (cv.data (left_image (with_imwrite w answer) args n))
      with (cv.data (left_image w args n)).
    change (cv.data (right_image (with_imwrite w answer) args n))
      with (cv.data (right_image w args n)).
    change (cv.data (disparity_of (with_imwrite w answer) args n))
      with (cv.data (disparity_of w args n)).
    specialize (IH (int_add n 1)
      (mkState (S (S (clock_reads s)))
               (cv.data (left_image w args n))
               (cv.data (right_image w args n))
               (cv.data (disparity_of w args n)))).
    destruct (stereosgm_movie.frames (with_imwrite w answer) args fuel _ _ _ _)
      as [[r1 t1] s1].
    destruct (stereosgm_movie.frames w args fuel _ _ _ _) as [[r2 t2] s2].
    simpl in *. now rewrite IH.
  - rewrite (frame_unreadable w args n s R).
    assert (R' : readable (with_imwrite w answer) args n = false) by exact R.
    pose proof (frame_unreadable (with_imwrite w answer) args n s R') as F.
    change (engine (with_imwrite w answer) args) with (engine w args) in F.
    change (get_invalid_disparity (with_imwrite w answer) (engine w args))
      with (get_invalid_disparity w (engine w args)) in F.
    rewrite F. reflexivity.
Qed.

Lemma loop_trace_with_imwrite (fuel : nat) :
  forall (n : Z) (c : nat),
    processed_frames (loop_trace (with_imwrite w answer) args fuel n c)
    = processed_frames (loop_trace w args fuel n c)
    /\ filter is_imwrite (loop_trace (with_imwrite w answer) args fuel n c)
       = filter is_imwrite (loop_trace w args fuel n c).
Proof.
  induction fuel as [|fuel IH]; intros n c; [split; reflexivity|].
  rewrite !loop_trace_step.
  destruct (int_sub n (start_number args) <? total_number args);
    [|split; reflexivity].
  change (readable (with_imwrite w answer) args n) with (readable w args n).
  destruct (readable w args n); [|split; reflexivity].
  destruct (IH (int_add n 1) (S (S c))) as [IP IW].
  rewrite !processed_frames_app, !processed_frame_trace, !filter_app, IP, IW.
  split; [reflexivity|]. f_equal.
  unfold frame_trace, report. simpl.
  destruct (answer _ _); destruct (imwrite w _ _); reflexivity.
Qed.

End MovieWrite.

(** X21.  What [cv::imwrite] answers has no influence on the run of the
    batch runner: with other answers, be they [true], [false] or
    exceptions, it ends with the same status, processes the same frames and
    calls [cv::imwrite] with the same paths and the same images. *)
Theorem batch_write_results_do_not_steer
  (w : World) (args : arguments)
  (answer : string -> cv.Mat -> write_result) :
  stereosgm_movie.status (with_imwrite w answer) args
  = stereosgm_movie.status w args
  /\ processed_frames (stereosgm_movie.trace (with_imwrite w answer) args)
     = processed_frames (stereosgm_movie.trace w args)
  /\ filter is_imwrite (stereosgm_movie.trace (with_imwrite w answer) args)
     = filter is_imwrite (stereosgm_movie.trace w args).
Proof.
  unfold stereosgm_movie.status, stereosgm_movie.trace, run,
    stereosgm_movie.main, stereosgm_movie.main_on.
  destruct (help args); [repeat split; reflexivity|].
  destruct (negb (check args)); [repeat split; reflexivity|].
  destruct (passes_validation w args) eqn:V.
  - assert (V' : passes_validation (with_imwrite w answer) args = true)
      by exact V.
    destruct (movie_pipeline_valid w args (S (Z.to_nat (total_number args))) V)
      as (r & s & F & E).
    destruct (movie_pipeline_valid (with_imwrite w answer) args
                (S (Z.to_nat (total_number args))) V')
      as (r' & s' & F' & E').
    rewrite E, E'.
    pose proof (frames_with_imwrite w args answer
                  (S (Z.to_nat (total_number args)))
                  (start_number args) initial_state) as O.
    change (engine (with_imwrite w answer) args) with (engine w args) in F'.
    change (get_invalid_disparity (with_imwrite w answer) (engine w args))
      with (get_invalid_disparity w (engine w args)) in F'.
    rewrite F, F' in O. cbn [fst] in O. subst r'.
    destruct (loop_trace_with_imwrite w args answer
                (S (Z.to_nat (total_number args))) (start_number args) 0)
      as [IP IW].
    destruct r; cbn [fst snd];
      rewrite !processed_frames_app, !filter_app, IP, IW;
      repeat split; reflexivity.
  - assert (V' : passes_validation (with_imwrite w answer) args = false)
      by exact V.
    rewrite (movie_pipeline_invalid w args _ V).
    rewrite (movie_pipeline_invalid (with_imwrite w answer) args _ V').
    repeat split; reflexivity.
Qed.

(** X22.  The line a processed frame ends with follows the answer of
    [cv::imwrite] for it: a thrown exception is reported on [std::cerr] with
    its message, while a returned [false] gives, like a returned [true], the
    line of a saved frame on [std::cout]. *)
Theorem batch_line_follows_write_result
  (w : World) (args : arguments) (n : Z) :
  In n (processed_frames (stereosgm_movie.trace w args)) ->
  match imwrite w (stereosgm_movie.full_path args n) (written_image w args n)
  with
  | Throws what =>
      In (CerrSaveError n (stereosgm_movie.full_path args n) what)
         (stereosgm_movie.trace w args)
  | Written | NotWritten =>
      exists fps,
        In (CoutSaved n (stereosgm_movie.full_path args n) 2 fps)
           (stereosgm_movie.trace w args)
  end.
Proof.
  intros Hin.
  destruct (movie_trace_segment w args n Hin) as (pre & post & c & E).
  assert (R : In (report w args n c) (stereosgm_movie.trace w args)).
  { rewrite E. apply in_or_app. right. apply in_or_app. left.
    unfold frame_trace, timed_call. simpl. do 10 right. now left. }
  unfold report in R.
  destruct (imwrite w _ _); try (eexists; exact R). exact R.
Qed.

Lemma batch_line_follows_write_result_witness :
  exists fps,
    In (CoutSaved 1 "out/disparity_0001.png" 2 fps)
       (stereosgm_movie.trace unwritable_world (example_arguments 0 5)).
Proof.
  apply (batch_line_follows_write_result
           unwritable_world (example_arguments 0 5) 1).
  vm_compute. right. left. reflexivity.
Defined.

(** X23.  The batch runner reads the pair at [start_number] once to set
    itself up and then, in the loop, two images for every frame it
    processes and two more for the frame it cannot read, if it stops at one:
    in a run that passes its checks, with [k] frames processed, the trace
    holds [2 + 2 (k + f)] calls of [cv::imread], [f] being 1 when the run
    printed that it has finished early and 0 otherwise. *)
Theorem batch_imread_accounting (w : World) (args : arguments) :
  past_command_line args = true ->
  passes_validation w args = true ->
  let t := stereosgm_movie.trace w args in
  count is_imread t
  = (2 + 2 * (List.length (processed_frames t) + count is_finished t))%nat
  /\ (count is_finished t <= 1)%nat.
Proof.
  intros P V. cbv zeta.
  rewrite (movie_trace_valid w args P V).
  rewrite processed_frames_app, !count_app.
  change (processed_frames (startup_trace w args)) with (@nil Z).
  change (count is_imread (startup_trace w args)) with 2%nat.
  change (count is_finished (startup_trace w args)) with 0%nat.
  destruct (loop_trace_counts w args (S (Z.to_nat (total_number args)))
              (start_number args) 0)
    as (_ & _ & _ & _ & _ & _ & R & _ & _ & F).
  cbn [app Nat.add]. rewrite R. split; [lia | exact F].
Qed.

Lemma batch_imread_accounting_witness :
  count is_imread (stereosgm_movie.trace example_world (example_arguments 0 5))
  = (2 + 2 * (List.length
                (processed_frames
                   (stereosgm_movie.trace example_world (example_arguments 0 5)))
              + count is_finished
                  (stereosgm_movie.trace example_world (example_arguments 0 5))))%nat
  /\ (count is_finished
        (stereosgm_movie.trace example_world (example_arguments 0 5)) <= 1)%nat.
Proof.
  apply (batch_imread_accounting example_world (example_arguments 0 5));
    reflexivity.
Defined.


(** ** The batch runner and the pairs met in the loop *)

Section MovieLaterPairs.

Variable w : World.
Variable args : arguments.

(** As long as the frames can be read and are frames of [int] index, the
    loop goes through them. *)
Lemma loop_trace_prefix_int (m : nat) :
  forall (fuel j c : nat),
    is_int (start_number args) ->
    total_number args <= INT_MAX ->
    Z.of_nat (j + m) <= total_number args ->
    start_number args + Z.of_nat (j + m) <= INT_MAX + 1 ->
    (m <= fuel)%nat ->
    (forall i, (i < m)%nat ->
               readable w args (start_number args + Z.of_nat (j + i)) = true) ->
    loop_trace w args fuel (wrap_int (start_number args + Z.of_nat j)) c
    = frames_events w args (start_number args + Z.of_nat j) c m
      ++ loop_trace w args (fuel - m)
                    (wrap_int (start_number args + Z.of_nat (j + m)))
                    (c + 2 * m).
Proof.
  induction m as [|m IH]; intros fuel j c Hs Htot Hj Hint Hfuel Hread.
  - rewrite Nat.sub_0_r, !Nat.add_0_r. reflexivity.
  - destruct fuel as [|fuel]; [lia|].
    rewrite loop_trace_step, int_sub_wrapped by lia.
    assert (C : (Z.of_nat j <? total_number args) = true)
      by (apply Z.ltb_lt; lia).
    rewrite C.
    rewrite (wrap_int_small (start_number args + Z.of_nat j))
      by (unfold is_int, INT_MIN, INT_MAX in *; lia).
    pose proof (Hread 0%nat ltac:(lia)) as R. rewrite Nat.add_0_r in R.
    rewrite R.
    assert (En : int_add (start_number args + Z.of_nat j) 1
                 = wrap_int (start_number args + Z.of_nat (S j)))
      by (unfold int_add; f_equal; lia).
    rewrite En.
    rewrite (IH fuel (S j) (S (S c))); try assumption; try lia.
    + rewrite frames_events_succ, <- app_assoc.
      replace (start_number args + Z.of_nat j + 1)
        with (start_number args + Z.of_nat (S j)) by lia.
      replace (S j + m)%nat with (j + S m)%nat by lia.
      replace (S (S c) + 2 * m)%nat with (c + 2 * S m)%nat by lia.
      reflexivity.
    + intros i Hi.
      replace (S j + i)%nat with (j + S i)%nat by lia.
      apply Hread. lia.
Qed.

(** A frame of the range up to which all frames can be read is
    processed, and the run ends with status 0. *)
Lemma movie_readable_frame_processed (n : Z) :
  is_int (start_number args) ->
  is_int (total_number args) ->
  past_command_line args = true ->
  passes_validation w args = true ->
  start_number args <= n < start_number args + total_number args ->
  n <= INT_MAX ->
  (forall i, start_number args <= i <= n -> readable w args i = true) ->
  stereosgm_movie.status w args = Some 0
  /\ In n (processed_frames (stereosgm_movie.trace w args)).
Proof.
  intros Hs Ht P V Hn Hint Hread.
  split.
  { unfold stereosgm_movie.status.
    rewrite (movie_run_valid w args P V) by (unfold is_int in *; lia).
    reflexivity. }
  rewrite (movie_trace_valid w args P V).
  pose proof (loop_trace_prefix_int
                (Z.to_nat (n - start_number args + 1))
                (S (Z.to_nat (total_number args))) 0 0 Hs) as L.
  change (Z.of_nat 0) with 0 in L. rewrite Z.add_0_r in L.
  rewrite (wrap_int_small _ Hs) in L.
  rewrite L; try (unfold is_int in *; lia).
  - rewrite !processed_frames_app, processed_frames_events.
    apply in_or_app. right. apply in_or_app. left.
    apply in_index_range. lia.
  - intros i Hi. apply Hread. lia.
Qed.

End MovieLaterPairs.

(** C2, as the code has it.  After the first pair the batch runner checks
    a pair only for being readable.  In a run with [int] arguments that
    passes the checks of the first pair, a pair of the range (of [int]
    index) that the loop reaches is processed whatever its size and sample
    depth, compatible or not: its two images are handed to [upload], the
    matching call runs, a result is written under the name of the frame, and
    the run ends with status 0.  This is said of sequences in which no image
    that can be read holds fewer bytes than a source buffer: a smaller image
    makes [upload] read past it, which is not defined. *)
Theorem batch_loop_checks_readability_only
  (w : World) (args : arguments) (n : Z) :
  is_int (start_number args) ->
  is_int (total_number args) ->
  past_command_line args = true ->
  passes_validation w args = true ->
  start_number args <= n < start_number args + total_number args ->
  n <= INT_MAX ->
  (forall i, start_number args <= i <= n -> readable w args i = true) ->
  (forall i, readable w args i = true -> upload_defined w args i = true) ->
  stereosgm_movie.status w args = Some 0
  /\ In n (processed_frames (stereosgm_movie.trace w args))
  /\ exists pre post t1 t2 img line,
       stereosgm_movie.trace w args
       = pre
         ++ [Imread (image_format_L args) n; Imread (image_format_R args) n;
             Upload d_I1 (cv.data (imread w (image_format_L args) n));
             Upload d_I2 (cv.data (imread w (image_format_R args) n));
             Now t1; Execute; DeviceSynchronize; Now t2;
             Download d_disparity;
             Imwrite (stereosgm_movie.full_path args n) img;
             line]
         ++ post.
Proof.
  intros Hs Ht P V Hn Hint Hread _.
  destruct (movie_readable_frame_processed w args n Hs Ht P V Hn Hint Hread)
    as [Hst Hin].
  split; [exact Hst|]. split; [exact Hin|].
  destruct (movie_trace_segment w args n Hin) as (pre & post & c & E).
  exists pre, post, (clock w c), (clock w (S c)),
         (written_image w args n), (report w args n c).
  exact E.
Qed.

Lemma batch_loop_checks_readability_only_witness :
  compatible deeper_world (example_arguments 0 2) 1 = false
  /\ stereosgm_movie.status deeper_world (example_arguments 0 2) = Some 0
  /\ In 1 (processed_frames
             (stereosgm_movie.trace deeper_world (example_arguments 0 2)))
  /\ exists pre post t1 t2 img line,
       stereosgm_movie.trace deeper_world (example_arguments 0 2)
       = pre
         ++ [Imread "left_%d.png" 1; Imread "right_%d.png" 1;
             Upload d_I1 [10; 20; 30; 40];
             Upload d_I2 [500; 600; 700; 800];
             Now t1; Execute; DeviceSynchronize; Now t2;
             Download d_disparity;
             Imwrite "out/disparity_0001.png" img;
             line]
         ++ post.
Proof.
  split; [reflexivity|].
  apply (batch_loop_checks_readability_only
           deeper_world (example_arguments 0 2) 1).
  - unfold is_int, INT_MIN, INT_MAX. simpl. lia.
  - unfold is_int, INT_MIN, INT_MAX. simpl. lia.
  - reflexivity.
  - reflexivity.
  - simpl. lia.
  - unfold INT_MAX. lia.
  - intros i Hi. simpl in Hi.
    assert (Hc : i = 0 \/ i = 1) by lia.
    destruct Hc as [-> | ->]; reflexivity.
  - intros i Hr.
    destruct (Z.eq_dec i 0) as [-> | H0]; [reflexivity|].
    destruct (Z.eq_dec i 1) as [-> | H1]; [reflexivity|].
    exfalso.
    apply Z.eqb_neq in H0. apply Z.eqb_neq in H1.
    cbv [readable deeper_world imread image_format_L image_format_R
         example_arguments] in Hr.
    rewrite H0, H1 in Hr. discriminate.
Defined.

(** C2, as the claim has it, fails: in [deeper_world] the pair at frame 1
    differs in sample depth (no image being smaller than a source buffer),
    yet the run is not aborted and the pair is processed. *)
Lemma batch_incompatible_pair_not_rejected :
  ~ aborts_on_incompatible_pair deeper_world (example_arguments 0 2) 1.
Proof.
  unfold aborts_on_incompatible_pair. intros H.
  destruct H as [(status & Hs & Hne) _].
  - simpl. lia.
  - intros i Hi. simpl in Hi.
    assert (Hc : i = 0 \/ i = 1) by lia.
    destruct Hc as [-> | ->]; reflexivity.
  - reflexivity.
  - vm_compute in Hs. injection Hs as <-. now apply Hne.
Qed.
